(** * Tag cloud (vis_type_tagcloud/public/components/tag_cloud.tsx)

    A shallow embedding of the [TagCloud] class: the rotation hash, the
    option handling, the text size mapper and the job pipeline
    ([_invalidate], [_processPendingJob], [_pickPendingJob], [_updateLayout],
    [_updateDOM], [_emptyDOM]), followed by the properties established
    about them.

    Conventions.
    - A JavaScript string is its sequence of UTF-16 code units.
    - Element sizes ([offsetWidth], [offsetHeight], never negative) are in
      [N]; weights, bounding boxes and word placements are whole, in [Z].
    - A font size is any number an options object may hold: [NaN], an
      infinity, or a whole number of the safe range ([Js.number]); the
      property may also be missing.  The d3 scales compute with fractions
      and with the same special values ([D3.number]); finite arithmetic is
      exact there.
    - The asynchronous pipeline is cut at its real suspension points (the
      zero-delay timeout, the layout generator's [end] event, the end of the
      DOM transitions); everything between two of them is one atomic step.
    - A job carries its words by value; what the layout generator wrote on
      them comes with its [end] event. *)

From Stdlib Require Import ZArith NArith QArith List Bool String Ascii Lia Lqa DecimalString.
From Stdlib Require DecimalPos DecimalZ Eqdep_dec.
Import ListNotations.
Open Scope Z_scope.

(* ================================================================== *)
(** ** JavaScript strings and [JSON.stringify] *)

Module Js.

(** A string value: UTF-16 code units. *)
Definition jsstring := list N.

(** A string literal of the source (ASCII). *)
Definition lit (s : string) : jsstring :=
  map N_of_ascii (list_ascii_of_string s).

Definition isLeadSurrogate (c : N) : bool := ((55296 <=? c) && (c <=? 56319))%N.
Definition isTrailSurrogate (c : N) : bool := ((56320 <=? c) && (c <=? 57343))%N.

(** What the string iterator ([for (const ch of str)]) yields: a single
    code unit, or a surrogate pair. *)
Inductive Char :=
| Unit (c : N)
| Pair (hi lo : N).

Fixpoint codePoints (s : jsstring) : list Char :=
  match s with
  | [] => []
  | c :: rest =>
      match rest with
      | d :: rest' =>
          if isLeadSurrogate c && isTrailSurrogate d
          then Pair c d :: codePoints rest'
          else Unit c :: codePoints rest
      | [] => [Unit c]
      end
  end.

(** [ch.charCodeAt(0)] *)
Definition charCodeAt0 (ch : Char) : N :=
  match ch with
  | Unit c => c
  | Pair hi _ => hi
  end.

Definition hexDigit (n : N) : N :=
  (if n <? 10 then 48 + n else 87 + n)%N.

(** [\uXXXX], lower-case hexadecimal. *)
Definition unicodeEscape (c : N) : jsstring :=
  [92; 117;
   hexDigit ((c / 4096) mod 16); hexDigit ((c / 256) mod 16);
   hexDigit ((c / 16) mod 16); hexDigit (c mod 16)]%N.

(** QuoteJSONString, one code point at a time. *)
Definition quoteChar (ch : Char) : jsstring :=
  match ch with
  | Pair hi lo => [hi; lo]
  | Unit c =>
      if (c =? 8)%N then lit "\b"
      else if (c =? 9)%N then lit "\t"
      else if (c =? 10)%N then lit "\n"
      else if (c =? 12)%N then lit "\f"
      else if (c =? 13)%N then lit "\r"
      else if (c =? 34)%N then [92; 34]%N
      else if (c =? 92)%N then [92; 92]%N
      else if (c <? 32)%N || isLeadSurrogate c || isTrailSurrogate c
           then unicodeEscape c
      else [c]
  end.

(** [JSON.stringify(str)] for a string [str]. *)
Definition stringifyString (s : jsstring) : jsstring :=
  [34%N] ++ flat_map quoteChar (codePoints s) ++ [34%N].

(** [Number.MAX_SAFE_INTEGER], 2^53 - 1. *)
Definition MAX_SAFE_INTEGER : Z := 9007199254740991.

Definition isSafeInteger (z : Z) : bool := Z.abs z <=? MAX_SAFE_INTEGER.

(** A number: [NaN], the two infinities, or a whole number that a
    double holds exactly. *)
Inductive number :=
| NaN
| Infinity
| NegInfinity
| Int (z : Z) (safe : isSafeInteger z = true).

(** [a <= b]: false as soon as one side is [NaN]. *)
Definition lessEq (a b : number) : bool :=
  match a, b with
  | NaN, _ | _, NaN => false
  | NegInfinity, _ => true
  | _, Infinity => true
  | Int x _, Int y _ => x <=? y
  | _, _ => false
  end.

(** [ToNumber] of what a property read yields: [undefined] (the
    property is missing) becomes [NaN]. *)
Definition toNumber (v : option number) : number :=
  match v with
  | Some n => n
  | None => NaN
  end.

(** [JSON.stringify(n)]: [NaN] and the infinities are written [null];
    a whole number below 10^21, as every safe one is, is written with
    all its digits. *)
Definition stringifyNumber (n : number) : jsstring :=
  match n with
  | Int z _ => lit (NilZero.string_of_int (Z.to_int z))
  | _ => lit "null"
  end.

End Js.

(** [Math.min] and [Math.max] of two arguments: [NaN] when either is [NaN]
    after [ToNumber]. *)
Module Math.

Definition isNaN (n : Js.number) : bool :=
  match n with
  | Js.NaN => true
  | _ => false
  end.

Definition min (a b : option Js.number) : Js.number :=
  let a := Js.toNumber a in
  let b := Js.toNumber b in
  if isNaN a || isNaN b then Js.NaN
  else if Js.lessEq a b then a else b.

Definition max (a b : option Js.number) : Js.number :=
  let a := Js.toNumber a in
  let b := Js.toNumber b in
  if isNaN a || isNaN b then Js.NaN
  else if Js.lessEq a b then b else a.

End Math.

(* ================================================================== *)
(** ** Words and jobs *)

(** [TagType]: what the caller supplies ([displayText], [rawText], [value],
    [meta]) and what the layout generator writes on the word ([text], [x],
    [y], [rotate], [size]).  A property that is absent is [None].  [meta]
    is an opaque payload, only ever copied. *)
Module Tag.
Record t := mk {
  text : option Js.jsstring;
  rawText : option Js.jsstring;
  displayText : option Js.jsstring;
  value : option Z;
  meta : option Js.jsstring;
  x : option Z;
  y : option Z;
  rotate : option Z;
  size : option Z
}.
End Tag.

(** [JobType] *)
Module Job.
Record t := mk {
  refreshLayout : bool;
  size : N * N;
  words : list Tag.t
}.
End Job.

(* ================================================================== *)
(** ** Rotation *)

Inductive Orientation := single | right_angled | multiple.

(** [hashWithinRange(str, max)].  [%] is the truncated remainder ([Z.rem]).
    Both call sites pass a positive constant for [max]. *)
Definition hashWithinRange (str : Js.jsstring) (max : Z) : Z :=
  let str := Js.stringifyString str in
  let hash :=
    fold_left
      (fun hash ch => Z.rem (hash * 31 + Z.of_N (Js.charCodeAt0 ch)) max)
      (Js.codePoints str) 0 in
  Z.rem (Z.abs hash) max.

(** [ORIENTATIONS[mode](tag)].  The two hashing entries read [tag.text]; on
    a tag without text [JSON.stringify] yields [undefined] and the iteration
    throws, which is [None] here. *)
Definition ORIENTATIONS (mode : Orientation) (tag : Tag.t) : option Z :=
  match mode with
  | single => Some 0
  | right_angled =>
      match Tag.text tag with
      | Some t => Some (hashWithinRange t 2 * 90)
      | None => None
      end
  | multiple =>
      match Tag.text tag with
      | Some t => Some (hashWithinRange t 12 * 15 - 90)
      | None => None
      end
  end.

(** The hash as the specification words it: mathematical [mod] folded over
    the character codes of the canonical (JSON) form. *)
Definition spec_hash (t : Js.jsstring) (max : Z) : Z :=
  let codes := map (fun ch => Z.of_N (Js.charCodeAt0 ch))
                   (Js.codePoints (Js.stringifyString t)) in
  (Z.abs (fold_left (fun hash code => (hash * 31 + code) mod max) codes 0)) mod max.

(* ================================================================== *)
(** ** Options *)

Inductive ScaleKind := linear | log | square_root.

Inductive OptionKey := k_orientation | k_minFontSize | k_maxFontSize | k_scale.

Definition OptionKey_eqb (a b : OptionKey) : bool :=
  match a, b with
  | k_orientation, k_orientation
  | k_minFontSize, k_minFontSize
  | k_maxFontSize, k_maxFontSize
  | k_scale, k_scale => true
  | _, _ => false
  end.

(** The [options] object handed to [setOptions]: the four properties of
    [TagCloudVisParams] that the class reads, and the order in which the
    caller's object lists them (a JavaScript object keeps its properties in
    insertion order, and [JSON.stringify] walks them in that order).
    [orientation] and [scale] are of the declared type: the class indexes
    [ORIENTATIONS] and [D3_SCALING_FUNCTIONS] with them.  A font size is
    whatever the object holds: a number, [NaN] and the infinities
    included, or [undefined] ([None]); a size that the object does not
    list reads as [undefined] too. *)
Module Options.
Record t := mk {
  orientation : Orientation;
  minFontSize : option Js.number;
  maxFontSize : option Js.number;
  scale : ScaleKind;
  keys : list OptionKey
}.

(** Whether the object lists the property [k]. *)
Definition has (k : OptionKey) (o : t) : bool :=
  existsb (OptionKey_eqb k) (keys o).

(** [options.minFontSize] and [options.maxFontSize] *)
Definition readMinFontSize (o : t) : option Js.number :=
  if has k_minFontSize o then minFontSize o else None.

Definition readMaxFontSize (o : t) : option Js.number :=
  if has k_maxFontSize o then maxFontSize o else None.
End Options.

Definition orientationName (o : Orientation) : Js.jsstring :=
  match o with
  | single => Js.lit "single"
  | right_angled => Js.lit "right angled"
  | multiple => Js.lit "multiple"
  end.

Definition scaleName (k : ScaleKind) : Js.jsstring :=
  match k with
  | linear => Js.lit "linear"
  | log => Js.lit "log"
  | square_root => Js.lit "square root"
  end.

(** One property as [JSON.stringify] writes it; a property whose value is
    [undefined] is left out ([None]). *)
Definition stringifyProperty (o : Options.t) (k : OptionKey) : option Js.jsstring :=
  match k with
  | k_orientation =>
      Some (Js.stringifyString (Js.lit "orientation") ++ Js.lit ":"
              ++ Js.stringifyString (orientationName (Options.orientation o)))
  | k_minFontSize =>
      match Options.minFontSize o with
      | Some n =>
          Some (Js.stringifyString (Js.lit "minFontSize") ++ Js.lit ":"
                  ++ Js.stringifyNumber n)
      | None => None
      end
  | k_maxFontSize =>
      match Options.maxFontSize o with
      | Some n =>
          Some (Js.stringifyString (Js.lit "maxFontSize") ++ Js.lit ":"
                  ++ Js.stringifyNumber n)
      | None => None
      end
  | k_scale =>
      Some (Js.stringifyString (Js.lit "scale") ++ Js.lit ":"
              ++ Js.stringifyString (scaleName (Options.scale o)))
  end.

(** The properties that are written, in the order of the object. *)
Definition stringifyProperties (o : Options.t) : list Js.jsstring :=
  flat_map (fun k => match stringifyProperty o k with
                     | Some p => [p]
                     | None => []
                     end)
           (Options.keys o).

Fixpoint joinComma (parts : list Js.jsstring) : Js.jsstring :=
  match parts with
  | [] => []
  | [p] => p
  | p :: ps => p ++ Js.lit "," ++ joinComma ps
  end.

(** [JSON.stringify(options)] *)
Definition stringifyOptions (o : Options.t) : Js.jsstring :=
  Js.lit "{" ++ joinComma (stringifyProperties o) ++ Js.lit "}".

(** Deep equality of two option objects: the same properties with the same
    values, whatever the order they are listed in. *)
Definition deepEqual (a b : Options.t) : Prop :=
  (forall k, In k (Options.keys a) <-> In k (Options.keys b)) /\
  Options.orientation a = Options.orientation b /\
  Options.minFontSize a = Options.minFontSize b /\
  Options.maxFontSize a = Options.maxFontSize b /\
  Options.scale a = Options.scale b.

(* ================================================================== *)
(** ** The d3 scales *)

(** [d3.scale.linear()], [d3.scale.log()] and [d3.scale.sqrt()] belong to
    the d3 library (version 3), not to this repository.  A scale is a
    linear scale ([d3_scale_bilinear] over [d3_uninterpolateNumber] and
    [d3_interpolateNumber]) behind a transform of its argument: none for
    the linear scale, the logarithm to base 10 for the log scale, the power
    0.5 for the square root scale.  The logarithm of a positive fraction
    and the root of a non-negative one are parameters of the development;
    what they do at and below 0 and on the special values is written
    out. *)
Module D3.

(** The numbers a scale computes with. *)
Inductive number :=
| NaN
| Infinity
| NegInfinity
| Finite (q : Q).

Definition ofNumber (n : Js.number) : number :=
  match n with
  | Js.NaN => NaN
  | Js.Infinity => Infinity
  | Js.NegInfinity => NegInfinity
  | Js.Int z _ => Finite (inject_Z z)
  end.

(** [Number(v)] for a weight: [undefined] becomes [NaN]. *)
Definition ofValue (v : option Z) : number :=
  match v with
  | Some z => Finite (inject_Z z)
  | None => NaN
  end.

(** The infinity of a sign; there is none for the sign of zero. *)
Definition signed (c : comparison) : number :=
  match c with
  | Gt => Infinity
  | Lt => NegInfinity
  | Eq => NaN
  end.

Definition neg (x : number) : number :=
  match x with
  | NaN => NaN
  | Infinity => NegInfinity
  | NegInfinity => Infinity
  | Finite q => Finite (- q)%Q
  end.

Definition add (x y : number) : number :=
  match x, y with
  | NaN, _ | _, NaN => NaN
  | Finite a, Finite b => Finite (a + b)%Q
  | Infinity, NegInfinity | NegInfinity, Infinity => NaN
  | Infinity, _ | _, Infinity => Infinity
  | NegInfinity, _ | _, NegInfinity => NegInfinity
  end.

Definition sub (x y : number) : number := add x (neg y).

(** [0 * Infinity] is [NaN]. *)
Definition mul (x y : number) : number :=
  match x, y with
  | NaN, _ | _, NaN => NaN
  | Finite a, Finite b => Finite (a * b)%Q
  | Finite a, Infinity | Infinity, Finite a => signed (a ?= 0)%Q
  | Finite a, NegInfinity | NegInfinity, Finite a => signed (CompOpp (a ?= 0)%Q)
  | Infinity, Infinity | NegInfinity, NegInfinity => Infinity
  | Infinity, NegInfinity | NegInfinity, Infinity => NegInfinity
  end.

(** A zero divisor is taken as [+0]: the one division by zero of a
    scale divides by a difference [b - a] of equal numbers. *)
Definition div (x y : number) : number :=
  match x, y with
  | NaN, _ | _, NaN => NaN
  | Finite a, Finite b =>
      match (b ?= 0)%Q with
      | Eq => signed (a ?= 0)%Q
      | _ => Finite (a / b)%Q
      end
  | Finite _, _ => Finite 0
  | Infinity, Finite b =>
      match (b ?= 0)%Q with
      | Lt => NegInfinity
      | _ => Infinity
      end
  | NegInfinity, Finite b =>
      match (b ?= 0)%Q with
      | Lt => Infinity
      | _ => NegInfinity
      end
  | _, _ => NaN
  end.

(** A number as a condition: [0] and [NaN] are falsy. *)
Definition truthy (x : number) : bool :=
  match x with
  | NaN => false
  | Finite q => negb (Qeq_bool q 0)
  | _ => true
  end.

(** [x < 0], [x > 0] and [x >= 0] *)
Definition isNegative (x : number) : bool :=
  match x with
  | NegInfinity => true
  | Finite q => match (q ?= 0)%Q with Lt => true | _ => false end
  | _ => false
  end.

Definition isPositive (x : number) : bool :=
  match x with
  | Infinity => true
  | Finite q => match (q ?= 0)%Q with Gt => true | _ => false end
  | _ => false
  end.

Definition notNegative (x : number) : bool :=
  match x with
  | Infinity => true
  | Finite q => match (q ?= 0)%Q with Lt => false | _ => true end
  | _ => false
  end.

(** A scale: its kind, the sign flag of a log scale ([positive]), its
    domain and its range. *)
Record scale := mkScale {
  kind : ScaleKind;
  positive : bool;
  domain : number * number;
  range : number * number
}.

(** A fresh scale, with d3's default domain and range. *)
Definition make (k : ScaleKind) : scale :=
  {| kind := k;
     positive := true;
     domain := match k with
               | log => (Finite 1, Finite 10)
               | _ => (Finite 0, Finite 1)
               end;
     range := (Finite 0, Finite 1) |}.

(** [scale.range(r)] *)
Definition setRange (r : Js.number * Js.number) (sc : scale) : scale :=
  {| kind := kind sc;
     positive := positive sc;
     domain := domain sc;
     range := (ofNumber (fst r), ofNumber (snd r)) |}.

(** [d3.extent(array, f)]: the least and the greatest of the defined
    values; [None] stands for [[undefined, undefined]]. *)
Definition extent {A} (array : list A) (f : A -> option Z) : option (Z * Z) :=
  fold_left
    (fun acc a =>
       match f a, acc with
       | None, _ => acc
       | Some b, None => Some (b, b)
       | Some b, Some (lo, hi) => Some (Z.min lo b, Z.max hi b)
       end)
    array None.

(** [scale.domain(x)]: the ends go through [Number]; a log scale sets
    its sign flag to [x[0] >= 0]. *)
Definition setDomain (x : option (Z * Z)) (sc : scale) : scale :=
  let x := match x with
           | Some (lo, hi) => (ofValue (Some lo), ofValue (Some hi))
           | None => (ofValue None, ofValue None)
           end in
  {| kind := kind sc;
     positive := match kind sc with
                 | log => notNegative (fst x)
                 | _ => positive sc
                 end;
     domain := x;
     range := range sc |}.

(** [d3_uninterpolateNumber(a, b)(x)]:
    [b = (b -= a = +a) || 1 / b; return (x - a) / b] *)
Definition uninterpolateNumber (a b x : number) : number :=
  let b := sub b a in
  let b := if truthy b then b else div (Finite 1) b in
  div (sub x a) b.

(** [d3_interpolateNumber(a, b)(t)] *)
Definition interpolateNumber (a b t : number) : number :=
  add (mul a (sub (Finite 1) t)) (mul b t).

Section Apply.
(** [Math.log(q) / Math.log(10)] for [q > 0] and [Math.pow(q, 0.5)]
    for [q >= 0]. *)
Variable log10 : Q -> Q.
Variable sqrt : Q -> Q.

(** [Math.log(x) / Math.log(10)] *)
Definition Math_log10 (x : number) : number :=
  match x with
  | Infinity => Infinity
  | Finite q =>
      match (q ?= 0)%Q with
      | Gt => Finite (log10 q)
      | Eq => NegInfinity
      | Lt => NaN
      end
  | _ => NaN
  end.

(** [Math.pow(x, 0.5)] *)
Definition Math_sqrt (x : number) : number :=
  match x with
  | NaN => NaN
  | Finite q =>
      match (q ?= 0)%Q with
      | Lt => NaN
      | _ => Finite (sqrt q)
      end
  | _ => Infinity
  end.

(** What the scale does to its argument and to the ends of its
    domain before the linear scale sees them: [log] of
    [d3_scale_log], [d3_scale_powPow(0.5)] of [d3_scale_pow]. *)
Definition transform (k : ScaleKind) (positive : bool) (x : number) : number :=
  match k with
  | linear => x
  | log =>
      if positive
      then Math_log10 (if isNegative x then Finite 0 else x)
      else neg (Math_log10 (if isPositive x then Finite 0 else neg x))
  | square_root =>
      if isNegative x then neg (Math_sqrt (neg x)) else Math_sqrt x
  end.

(** [scale(x)] *)
Definition apply (sc : scale) (x : number) : number :=
  let f := transform (kind sc) (positive sc) in
  interpolateNumber
    (fst (range sc)) (snd (range sc))
    (uninterpolateNumber (f (fst (domain sc))) (f (snd (domain sc))) (f x)).
End Apply.

End D3.

(** [D3_SCALING_FUNCTIONS[kind]()] *)
Definition D3_SCALING_FUNCTIONS (k : ScaleKind) : D3.scale := D3.make k.

(* ================================================================== *)
(** ** The [TagCloud] object *)

(** [SVGRect], as returned by [getBBox()]. *)
Module BBox.
Record t := mk { x : Z; y : Z; width : Z; height : Z }.
End BBox.

(** [STATUS] *)
Module Status.
Record t := mk { COMPLETE : Z; INCOMPLETE : Z }.
End Status.

(** Where the running invocation of [_processPendingJob] is suspended. *)
Inductive Suspended :=
| NotSuspended
| AwaitingTimeout                       (* in [_pickPendingJob] *)
| AwaitingLayout (job : Job.t)          (* in [_updateLayout] *)
| AwaitingTransitions (job : Job.t).    (* in [_updateDOM] *)

(** What an observer of the object can see happen. *)
Inductive Effect :=
| LayoutStarted (job : Job.t)           (* [tagCloudLayoutGenerator.start()] *)
| DomUpdateStarted (job : Job.t)        (* the transitions of [_updateDOM] set off *)
| DomEmptied                            (* [_emptyDOM] *)
| RenderComplete.                       (* [emit('renderComplete')] *)

(** The fields of the class, the part of the DOM it reads
    ([_element.offsetWidth], [_element.offsetHeight] and the bounding box of
    [_svgGroup]), the suspended invocation and the effects so far (oldest
    first). *)
Record TagCloud := mkTagCloud {
  offsetWidth : N;
  offsetHeight : N;
  getBBox : BBox.t;
  timeouts : positive;   (* the next handle [setTimeout] hands out *)

  _size : N * N;
  _orientation : Orientation;
  _minFontSize : Js.number;
  _maxFontSize : Js.number;
  _textScale : ScaleKind;
  _optionsAsString : option Js.jsstring;
  _words : option (list Tag.t);
  _setTimeoutId : option positive;
  _pendingJob : option Job.t;
  _layoutIsUpdating : option bool;
  _allInViewBox : bool;
  _DOMisUpdating : bool;
  _cloudWidth : Z;
  _cloudHeight : Z;
  _completedJob : option Job.t;
  STATUS : Status.t;

  suspended : Suspended;
  effects : list Effect
}.

(** Assignment to one field. *)
Definition set_offsetWidth (v : N) (s : TagCloud) : TagCloud :=
  mkTagCloud v (offsetHeight s) (getBBox s) (timeouts s) (_size s)
    (_orientation s) (_minFontSize s) (_maxFontSize s) (_textScale s)
    (_optionsAsString s) (_words s) (_setTimeoutId s) (_pendingJob s)
    (_layoutIsUpdating s) (_allInViewBox s) (_DOMisUpdating s)
    (_cloudWidth s) (_cloudHeight s) (_completedJob s) (STATUS s)
    (suspended s) (effects s).
Definition set_offsetHeight (v : N) (s : TagCloud) : TagCloud :=
  mkTagCloud (offsetWidth s) v (getBBox s) (timeouts s) (_size s)
    (_orientation s) (_minFontSize s) (_maxFontSize s) (_textScale s)
    (_optionsAsString s) (_words s) (_setTimeoutId s) (_pendingJob s)
    (_layoutIsUpdating s) (_allInViewBox s) (_DOMisUpdating s)
    (_cloudWidth s) (_cloudHeight s) (_completedJob s) (STATUS s)
    (suspended s) (effects s).
Definition set_getBBox (v : BBox.t) (s : TagCloud) : TagCloud :=
  mkTagCloud (offsetWidth s) (offsetHeight s) v (timeouts s) (_size s)
    (_orientation s) (_minFontSize s) (_maxFontSize s) (_textScale s)
    (_optionsAsString s) (_words s) (_setTimeoutId s) (_pendingJob s)
    (_layoutIsUpdating s) (_allInViewBox s) (_DOMisUpdating s)
    (_cloudWidth s) (_cloudHeight s) (_completedJob s) (STATUS s)
    (suspended s) (effects s).
Definition set_timeouts (v : positive) (s : TagCloud) : TagCloud :=
  mkTagCloud (offsetWidth s) (offsetHeight s) (getBBox s) v (_size s)
    (_orientation s) (_minFontSize s) (_maxFontSize s) (_textScale s)
    (_optionsAsString s) (_words s) (_setTimeoutId s) (_pendingJob s)
    (_layoutIsUpdating s) (_allInViewBox s) (_DOMisUpdating s)
    (_cloudWidth s) (_cloudHeight s) (_completedJob s) (STATUS s)
    (suspended s) (effects s).
Definition set_size (v : N * N) (s : TagCloud) : TagCloud :=
  mkTagCloud (offsetWidth s) (offsetHeight s) (getBBox s) (timeouts s) v
    (_orientation s) (_minFontSize s) (_maxFontSize s) (_textScale s)
    (_optionsAsString s) (_words s) (_setTimeoutId s) (_pendingJob s)
    (_layoutIsUpdating s) (_allInViewBox s) (_DOMisUpdating s)
    (_cloudWidth s) (_cloudHeight s) (_completedJob s) (STATUS s)
    (suspended s) (effects s).
Definition set_orientation (v : Orientation) (s : TagCloud) : TagCloud :=
  mkTagCloud (offsetWidth s) (offsetHeight s) (getBBox s) (timeouts s)
    (_size s) v (_minFontSize s) (_maxFontSize s) (_textScale s)
    (_optionsAsString s) (_words s) (_setTimeoutId s) (_pendingJob s)
    (_layoutIsUpdating s) (_allInViewBox s) (_DOMisUpdating s)
    (_cloudWidth s) (_cloudHeight s) (_completedJob s) (STATUS s)
    (suspended s) (effects s).
Definition set_minFontSize (v : Js.number) (s : TagCloud) : TagCloud :=
  mkTagCloud (offsetWidth s) (offsetHeight s) (getBBox s) (timeouts s)
    (_size s) (_orientation s) v (_maxFontSize s) (_textScale s)
    (_optionsAsString s) (_words s) (_setTimeoutId s) (_pendingJob s)
    (_layoutIsUpdating s) (_allInViewBox s) (_DOMisUpdating s)
    (_cloudWidth s) (_cloudHeight s) (_completedJob s) (STATUS s)
    (suspended s) (effects s).
Definition set_maxFontSize (v : Js.number) (s : TagCloud) : TagCloud :=
  mkTagCloud (offsetWidth s) (offsetHeight s) (getBBox s) (timeouts s)
    (_size s) (_orientation s) (_minFontSize s) v (_textScale s)
    (_optionsAsString s) (_words s) (_setTimeoutId s) (_pendingJob s)
    (_layoutIsUpdating s) (_allInViewBox s) (_DOMisUpdating s)
    (_cloudWidth s) (_cloudHeight s) (_completedJob s) (STATUS s)
    (suspended s) (effects s).
Definition set_textScale (v : ScaleKind) (s : TagCloud) : TagCloud :=
  mkTagCloud (offsetWidth s) (offsetHeight s) (getBBox s) (timeouts s)
    (_size s) (_orientation s) (_minFontSize s) (_maxFontSize s) v
    (_optionsAsString s) (_words s) (_setTimeoutId s) (_pendingJob s)
    (_layoutIsUpdating s) (_allInViewBox s) (_DOMisUpdating s)
    (_cloudWidth s) (_cloudHeight s) (_completedJob s) (STATUS s)
    (suspended s) (effects s).
Definition set_optionsAsString (v : option Js.jsstring) (s : TagCloud) : TagCloud :=
  mkTagCloud (offsetWidth s) (offsetHeight s) (getBBox s) (timeouts s)
    (_size s) (_orientation s) (_minFontSize s) (_maxFontSize s)
    (_textScale s) v (_words s) (_setTimeoutId s) (_pendingJob s)
    (_layoutIsUpdating s) (_allInViewBox s) (_DOMisUpdating s)
    (_cloudWidth s) (_cloudHeight s) (_completedJob s) (STATUS s)
    (suspended s) (effects s).
Definition set_words (v : option (list Tag.t)) (s : TagCloud) : TagCloud :=
  mkTagCloud (offsetWidth s) (offsetHeight s) (getBBox s) (timeouts s)
    (_size s) (_orientation s) (_minFontSize s) (_maxFontSize s)
    (_textScale s) (_optionsAsString s) v (_setTimeoutId s) (_pendingJob
    s) (_layoutIsUpdating s) (_allInViewBox s) (_DOMisUpdating s)
    (_cloudWidth s) (_cloudHeight s) (_completedJob s) (STATUS s)
    (suspended s) (effects s).
Definition set_setTimeoutId (v : option positive) (s : TagCloud) : TagCloud :=
  mkTagCloud (offsetWidth s) (offsetHeight s) (getBBox s) (timeouts s)
    (_size s) (_orientation s) (_minFontSize s) (_maxFontSize s)
    (_textScale s) (_optionsAsString s) (_words s) v (_pendingJob s)
    (_layoutIsUpdating s) (_allInViewBox s) (_DOMisUpdating s)
    (_cloudWidth s) (_cloudHeight s) (_completedJob s) (STATUS s)
    (suspended s) (effects s).
Definition set_pendingJob (v : option Job.t) (s : TagCloud) : TagCloud :=
  mkTagCloud (offsetWidth s) (offsetHeight s) (getBBox s) (timeouts s)
    (_size s) (_orientation s) (_minFontSize s) (_maxFontSize s)
    (_textScale s) (_optionsAsString s) (_words s) (_setTimeoutId s) v
    (_layoutIsUpdating s) (_allInViewBox s) (_DOMisUpdating s)
    (_cloudWidth s) (_cloudHeight s) (_completedJob s) (STATUS s)
    (suspended s) (effects s).
Definition set_layoutIsUpdating (v : option bool) (s : TagCloud) : TagCloud :=
  mkTagCloud (offsetWidth s) (offsetHeight s) (getBBox s) (timeouts s)
    (_size s) (_orientation s) (_minFontSize s) (_maxFontSize s)
    (_textScale s) (_optionsAsString s) (_words s) (_setTimeoutId s)
    (_pendingJob s) v (_allInViewBox s) (_DOMisUpdating s) (_cloudWidth s)
    (_cloudHeight s) (_completedJob s) (STATUS s) (suspended s) (effects
    s).
Definition set_allInViewBox (v : bool) (s : TagCloud) : TagCloud :=
  mkTagCloud (offsetWidth s) (offsetHeight s) (getBBox s) (timeouts s)
    (_size s) (_orientation s) (_minFontSize s) (_maxFontSize s)
    (_textScale s) (_optionsAsString s) (_words s) (_setTimeoutId s)
    (_pendingJob s) (_layoutIsUpdating s) v (_DOMisUpdating s)
    (_cloudWidth s) (_cloudHeight s) (_completedJob s) (STATUS s)
    (suspended s) (effects s).
Definition set_DOMisUpdating (v : bool) (s : TagCloud) : TagCloud :=
  mkTagCloud (offsetWidth s) (offsetHeight s) (getBBox s) (timeouts s)
    (_size s) (_orientation s) (_minFontSize s) (_maxFontSize s)
    (_textScale s) (_optionsAsString s) (_words s) (_setTimeoutId s)
    (_pendingJob s) (_layoutIsUpdating s) (_allInViewBox s) v (_cloudWidth
    s) (_cloudHeight s) (_completedJob s) (STATUS s) (suspended s)
    (effects s).
Definition set_cloudWidth (v : Z) (s : TagCloud) : TagCloud :=
  mkTagCloud (offsetWidth s) (offsetHeight s) (getBBox s) (timeouts s)
    (_size s) (_orientation s) (_minFontSize s) (_maxFontSize s)
    (_textScale s) (_optionsAsString s) (_words s) (_setTimeoutId s)
    (_pendingJob s) (_layoutIsUpdating s) (_allInViewBox s)
    (_DOMisUpdating s) v (_cloudHeight s) (_completedJob s) (STATUS s)
    (suspended s) (effects s).
Definition set_cloudHeight (v : Z) (s : TagCloud) : TagCloud :=
  mkTagCloud (offsetWidth s) (offsetHeight s) (getBBox s) (timeouts s)
    (_size s) (_orientation s) (_minFontSize s) (_maxFontSize s)
    (_textScale s) (_optionsAsString s) (_words s) (_setTimeoutId s)
    (_pendingJob s) (_layoutIsUpdating s) (_allInViewBox s)
    (_DOMisUpdating s) (_cloudWidth s) v (_completedJob s) (STATUS s)
    (suspended s) (effects s).
Definition set_completedJob (v : option Job.t) (s : TagCloud) : TagCloud :=
  mkTagCloud (offsetWidth s) (offsetHeight s) (getBBox s) (timeouts s)
    (_size s) (_orientation s) (_minFontSize s) (_maxFontSize s)
    (_textScale s) (_optionsAsString s) (_words s) (_setTimeoutId s)
    (_pendingJob s) (_layoutIsUpdating s) (_allInViewBox s)
    (_DOMisUpdating s) (_cloudWidth s) (_cloudHeight s) v (STATUS s)
    (suspended s) (effects s).
Definition set_suspended (v : Suspended) (s : TagCloud) : TagCloud :=
  mkTagCloud (offsetWidth s) (offsetHeight s) (getBBox s) (timeouts s)
    (_size s) (_orientation s) (_minFontSize s) (_maxFontSize s)
    (_textScale s) (_optionsAsString s) (_words s) (_setTimeoutId s)
    (_pendingJob s) (_layoutIsUpdating s) (_allInViewBox s)
    (_DOMisUpdating s) (_cloudWidth s) (_cloudHeight s) (_completedJob s)
    (STATUS s) v (effects s).
Definition set_effects (v : list Effect) (s : TagCloud) : TagCloud :=
  mkTagCloud (offsetWidth s) (offsetHeight s) (getBBox s) (timeouts s)
    (_size s) (_orientation s) (_minFontSize s) (_maxFontSize s)
    (_textScale s) (_optionsAsString s) (_words s) (_setTimeoutId s)
    (_pendingJob s) (_layoutIsUpdating s) (_allInViewBox s)
    (_DOMisUpdating s) (_cloudWidth s) (_cloudHeight s) (_completedJob s)
    (STATUS s) (suspended s) v.

(** Truthiness of a value that is either [null]/[undefined] or an object
    (or a timer handle, which is a positive integer). *)
Definition truthy {A} (v : option A) : bool :=
  match v with
  | Some _ => true
  | None => false
  end.

(** [this.emit(...)], and the other observable effects. *)
Definition emit (e : Effect) (s : TagCloud) : TagCloud :=
  set_effects (effects s ++ [e]) s.

(** An [async] method either returns within the current task or is left
    waiting for a later one. *)
Inductive Outcome :=
| Returned (s : TagCloud)
| Waiting (s : TagCloud).

(** *** The constructor

    [STATUS] is initialised by the field declaration and then assigned
    again at the end of the constructor.  The constructor calls [resize()]
    before the other fields exist: with no words yet that call only copies
    the element's dimensions into [_size]. *)
Definition STATUS_initializer : Status.t :=
  {| Status.COMPLETE := 0; Status.INCOMPLETE := 1 |}.

Definition constructor (width height : N) : TagCloud :=
  let STATUS := STATUS_initializer in
  let STATUS := {| Status.COMPLETE := 0; Status.INCOMPLETE := Status.INCOMPLETE STATUS |} in
  let STATUS := {| Status.COMPLETE := Status.COMPLETE STATUS; Status.INCOMPLETE := 0 |} in
  {| offsetWidth := width;
     offsetHeight := height;
     getBBox := BBox.mk 0 0 0 0;
     timeouts := 1%positive;
     _size := (width, height);
     _orientation := single;
     _minFontSize := Js.Int 10 eq_refl;
     _maxFontSize := Js.Int 36 eq_refl;
     _textScale := linear;
     _optionsAsString := None;
     _words := None;
     _setTimeoutId := None;
     _pendingJob := None;
     _layoutIsUpdating := None;
     _allInViewBox := false;
     _DOMisUpdating := false;
     _cloudWidth := 0;
     _cloudHeight := 0;
     _completedJob := None;
     STATUS := STATUS;
     suspended := NotSuspended;
     effects := [] |}.

(** *** [getStatus] *)
Definition getStatus (s : TagCloud) : Z :=
  if _allInViewBox s then Status.COMPLETE (STATUS s) else Status.INCOMPLETE (STATUS s).

(** *** [_isJobRunning] *)
Definition _isJobRunning (s : TagCloud) : bool :=
  truthy (_setTimeoutId s)
  || match _layoutIsUpdating s with Some b => b | None => false end
  || _DOMisUpdating s.

(** *** [_pickPendingJob]: arms the zero-delay timeout... *)
Definition _pickPendingJob (s : TagCloud) : TagCloud :=
  let s := set_setTimeoutId (Some (timeouts s)) s in
  let s := set_timeouts (Pos.succ (timeouts s)) s in
  set_suspended AwaitingTimeout s.

(** ... whose callback hands over the pending job. *)
Definition timeoutCallback (s : TagCloud) : option Job.t * TagCloud :=
  let job := _pendingJob s in
  let s := set_pendingJob None s in
  let s := set_setTimeoutId None s in
  (job, s).

(** *** [_processPendingJob], up to its first [await] *)
Definition _processPendingJob (s : TagCloud) : TagCloud :=
  if negb (truthy (_pendingJob s)) then s
  else if _isJobRunning s then s
  else
    let s := set_completedJob None s in
    _pickPendingJob s.

(** *** [_emptyDOM] *)
Definition _emptyDOM (s : TagCloud) : TagCloud :=
  let s := emit DomEmptied (set_getBBox (BBox.mk 0 0 0 0) s) in
  let s := set_cloudWidth 0 s in
  let s := set_cloudHeight 0 s in
  let s := set_allInViewBox true s in
  set_DOMisUpdating false s.

(** *** [_updateDOM], up to its [await] *)
Definition _updateDOM (job : Job.t) (s : TagCloud) : Outcome :=
  let canSkipDomUpdate := truthy (_pendingJob s) || truthy (_setTimeoutId s) in
  if canSkipDomUpdate then Returned (set_DOMisUpdating false s)
  else
    let s := set_DOMisUpdating true s in
    let s := emit (DomUpdateStarted job) s in
    Waiting (set_suspended (AwaitingTransitions job) s).

(** *** [_makeTextSizeMapper] *)
Definition getValue (tag : Tag.t) : option Z := Tag.value tag.

Definition _makeTextSizeMapper (s : TagCloud) : D3.scale :=
  let mapSizeToFontSize := D3_SCALING_FUNCTIONS (_textScale s) in
  match _words s with
  | Some words =>
      let range :=
        if (List.length words =? 1)%nat
        then (_maxFontSize s, _maxFontSize s)
        else (_minFontSize s, _maxFontSize s) in
      let mapSizeToFontSize := D3.setRange range mapSizeToFontSize in
      D3.setDomain (D3.extent words getValue) mapSizeToFontSize
  | None => mapSizeToFontSize
  end.

(** *** [_makeNewJob]; only [_invalidate] calls it, after its test that
    [_words] is set, and passes that value on. *)
Definition _makeNewJob (words : list Tag.t) (s : TagCloud) : Job.t :=
  {| Job.refreshLayout := true;
     Job.size := _size s;
     Job.words := words |}.

(** [a || b] on two optional strings: the empty string is falsy. *)
Definition orElse (a b : option Js.jsstring) : option Js.jsstring :=
  match a with
  | Some (_ :: _) => a
  | _ => b
  end.

(** *** [_makeJobPreservingLayout] *)
Definition preserve (tag : Tag.t) : Tag.t :=
  {| Tag.x := Tag.x tag;
     Tag.y := Tag.y tag;
     Tag.rotate := Tag.rotate tag;
     Tag.size := Tag.size tag;
     Tag.rawText := orElse (Tag.rawText tag) (Tag.text tag);
     Tag.displayText := Tag.displayText tag;
     Tag.meta := Tag.meta tag;
     Tag.text := None;
     Tag.value := None |}.

Definition _makeJobPreservingLayout (s : TagCloud) : option Job.t :=
  match _completedJob s with
  | Some completedJob =>
      Some {| Job.refreshLayout := false;
              Job.size := _size s;
              Job.words := map preserve (Job.words completedJob) |}
  | None => None
  end.

(** *** [_invalidate] *)
Definition _invalidate (keepLayout : bool) (s : TagCloud) : TagCloud :=
  match _words s with
  | None => s
  | Some words =>
      let canReuseLayout :=
        keepLayout && negb (_isJobRunning s) && truthy (_completedJob s) in
      let s :=
        set_pendingJob
          (if canReuseLayout then _makeJobPreservingLayout s
           else Some (_makeNewJob words s)) s in
      _processPendingJob s
  end.

(** *** [_updateLayout], up to its [await] *)
Definition _updateLayout (job : Job.t) (s : TagCloud) : Outcome :=
  if (fst (Job.size job) <=? 0)%N || (snd (Job.size job) <=? 0)%N
  then Returned s
  else
    let s := set_layoutIsUpdating (Some true) s in
    let s := emit (LayoutStarted job) s in
    Waiting (set_suspended (AwaitingLayout job) s).

(** *** [_processPendingJob], after each [await]

    The rest of the method, cut where it can be suspended.  Each piece runs
    to the next suspension or to the end of the method. *)

(** Lines following [_updateDOM]: the measure of the rendered scene. *)
Definition measure (s : TagCloud) : TagCloud :=
  let cloudBBox := getBBox s in
  let s := set_cloudWidth (BBox.width cloudBBox) s in
  let s := set_cloudHeight (BBox.height cloudBBox) s in
  set_allInViewBox
    ((BBox.x cloudBBox >=? 0)
     && (BBox.y cloudBBox >=? 0)
     && (BBox.x cloudBBox + BBox.width cloudBBox <=? Z.of_N (offsetWidth s))
     && (BBox.y cloudBBox + BBox.height cloudBBox <=? Z.of_N (offsetHeight s)))
    s.

(** The end of the method: pick up the next job, or complete. *)
Definition finishJob (job : Job.t) (s : TagCloud) : TagCloud :=
  if truthy (_pendingJob s) then _processPendingJob s
  else
    let s := set_completedJob (Some job) s in
    emit RenderComplete s.

Definition afterUpdateDOM (job : Job.t) (s : TagCloud) : TagCloud :=
  finishJob job (measure s).

Definition afterUpdateLayout (job : Job.t) (s : TagCloud) : TagCloud :=
  match _updateDOM job s with
  | Returned s => afterUpdateDOM job s
  | Waiting s => s
  end.

Definition afterPickPendingJob (job : Job.t) (s : TagCloud) : TagCloud :=
  match Job.words job with
  | _ :: _ =>
      if Job.refreshLayout job then
        match _updateLayout job s with
        | Returned s => afterUpdateLayout job s
        | Waiting s => s
        end
      else afterUpdateLayout job s
  | [] => finishJob job (_emptyDOM s)
  end.

(** *** What resumes a suspended invocation *)

(** The zero-delay timeout fires.  (With no pending job the method would
    fail on [job.words]; the invocation then just ends.) *)
Definition timeoutFires (s : TagCloud) : TagCloud :=
  match suspended s with
  | AwaitingTimeout =>
      let (job, s) := timeoutCallback s in
      let s := set_suspended NotSuspended s in
      match job with
      | Some job => afterPickPendingJob job s
      | None => s
      end
  | _ => s
  end.

(** The layout generator signals [end]; [laidOut] is [job.words] as the
    generator left them (it writes the placement on the words in place). *)
Definition layoutEnds (laidOut : list Tag.t) (s : TagCloud) : TagCloud :=
  match suspended s with
  | AwaitingLayout job =>
      let s := set_layoutIsUpdating (Some false) s in
      let s := set_suspended NotSuspended s in
      afterUpdateLayout
        {| Job.refreshLayout := Job.refreshLayout job;
           Job.size := Job.size job;
           Job.words := laidOut |} s
  | _ => s
  end.

(** The last of the transitions ends, leaving a scene of bounding box
    [bbox]. *)
Definition transitionsEnd (bbox : BBox.t) (s : TagCloud) : TagCloud :=
  match suspended s with
  | AwaitingTransitions job =>
      let s := set_getBBox bbox s in
      let s := set_DOMisUpdating false s in
      let s := set_suspended NotSuspended s in
      afterUpdateDOM job s
  | _ => s
  end.

(** *** [setOptions] *)
Definition strictEquals (a : Js.jsstring) (b : option Js.jsstring) : bool :=
  match b with
  | Some b => if list_eq_dec N.eq_dec a b then true else false
  | None => false
  end.

Definition setOptions (options : Options.t) (s : TagCloud) : TagCloud :=
  if strictEquals (stringifyOptions options) (_optionsAsString s) then s
  else
    let s := set_optionsAsString (Some (stringifyOptions options)) s in
    let s := set_orientation (Options.orientation options) s in
    let s := set_minFontSize
               (Math.min (Options.readMinFontSize options)
                         (Options.readMaxFontSize options)) s in
    let s := set_maxFontSize
               (Math.max (Options.readMinFontSize options)
                         (Options.readMaxFontSize options)) s in
    let s := set_textScale (Options.scale options) s in
    _invalidate false s.

(** *** [resize] *)
Definition wasInside (s : TagCloud) : bool :=
  (Z.of_N (fst (_size s)) >=? _cloudWidth s)
  && (Z.of_N (snd (_size s)) >=? _cloudHeight s).

Definition willBeInside (newWidth newHeight : N) (s : TagCloud) : bool :=
  (_cloudWidth s <=? Z.of_N newWidth) && (_cloudHeight s <=? Z.of_N newHeight).

Definition resize (s : TagCloud) : TagCloud :=
  let newWidth := offsetWidth s in
  let newHeight := offsetHeight s in
  if (newWidth =? fst (_size s))%N && (newHeight =? snd (_size s))%N then s
  else
    let wasInside := wasInside s in
    let willBeInside := willBeInside newWidth newHeight s in
    let s := set_size (newWidth, newHeight) s in
    if wasInside && willBeInside && _allInViewBox s
    then _invalidate true s
    else _invalidate false s.

(** *** [setData] *)
Definition setData (data : option (list Tag.t)) (s : TagCloud) : TagCloud :=
  let s := set_words data s in
  _invalidate false s.

(** *** [destroy]: an armed timeout is cleared and never fires; the field
    [_setTimeoutId] keeps its value. *)
Definition destroy (s : TagCloud) : TagCloud :=
  match suspended s with
  | AwaitingTimeout => set_suspended NotSuspended s
  | _ => s
  end.

(** *** [getDebugInfo] *)
Module Position.
Record t := mk {
  displayText : option Js.jsstring;
  rawText : option Js.jsstring;
  x : option Z;
  y : option Z;
  rotate : option Z
}.
End Position.

Definition getDebugInfo (s : TagCloud) : list Position.t * (N * N) :=
  let positions :=
    match _completedJob s with
    | Some completedJob =>
        map (fun tag =>
               {| Position.displayText := Tag.displayText tag;
                  Position.rawText := orElse (Tag.rawText tag) (Tag.text tag);
                  Position.x := Tag.x tag;
                  Position.y := Tag.y tag;
                  Position.rotate := Tag.rotate tag |})
            (Job.words completedJob)
    | None => []
    end in
  (positions, (fst (_size s), snd (_size s))).

(** *** [positionWord]: the transform given to a word's node, as its three
    numbers ([translate(tx, ty)rotate(r)]). *)
Definition positionWord (xTranslate yTranslate : Q) (word : Tag.t) : Q * Q * Z :=
  match Tag.x word, Tag.y word, Tag.rotate word with
  | Some x, Some y, Some rotate =>
      ((inject_Z x + xTranslate)%Q, (inject_Z y + yTranslate)%Q, rotate)
  | _, _, _ => ((xTranslate * 3)%Q, (yTranslate * 3)%Q, 0)
  end.

(** The transforms [_updateDOM] applies for a job. *)
Definition affineTransforms (job : Job.t) (s : TagCloud) : list (Q * Q * Z) :=
  map (positionWord (inject_Z (Z.of_N (offsetWidth s)) / 2)%Q
                    (inject_Z (Z.of_N (offsetHeight s)) / 2)%Q)
      (Job.words job).

(* ================================================================== *)
(** ** Executions *)

(** What can happen to the object: a call of one of its methods by the
    host, a change of the page under it, or the completion of something it
    waits for. *)
Inductive Event :=
| CallSetOptions (options : Options.t)
| CallSetData (data : option (list Tag.t))
| CallResize
| CallDestroy
| ElementResized (width height : N)
| SceneChanged (bbox : BBox.t)
| TimeoutFires
| LayoutEnds (laidOut : list Tag.t)
| TransitionsEnd (bbox : BBox.t).

Definition step (s : TagCloud) (e : Event) : TagCloud :=
  match e with
  | CallSetOptions options => setOptions options s
  | CallSetData data => setData data s
  | CallResize => resize s
  | CallDestroy => destroy s
  | ElementResized width height => set_offsetHeight height (set_offsetWidth width s)
  | SceneChanged bbox => set_getBBox bbox s
  | TimeoutFires => timeoutFires s
  | LayoutEnds laidOut => layoutEnds laidOut s
  | TransitionsEnd bbox => transitionsEnd bbox s
  end.

Definition run (events : list Event) (s : TagCloud) : TagCloud :=
  fold_left step events s.

(** The states an object can be in: those some execution leads to from a
    freshly constructed object. *)
Inductive reachable : TagCloud -> Prop :=
| reachable_new : forall width height, reachable (constructor width height)
| reachable_step : forall s e, reachable s -> reachable (step s e).

(** Nothing pending, nothing running. *)
Definition idle (s : TagCloud) : Prop :=
  _pendingJob s = None /\ _isJobRunning s = false /\ suspended s = NotSuspended.

(** The word sets on which a layout pass was started, in order. *)
Fixpoint layoutPasses (es : list Effect) : list (list Tag.t) :=
  match es with
  | [] => []
  | LayoutStarted job :: es => Job.words job :: layoutPasses es
  | _ :: es => layoutPasses es
  end.

(** The number of [renderComplete] events emitted. *)
Fixpoint renderCompletes (es : list Effect) : nat :=
  match es with
  | [] => O
  | RenderComplete :: es => S (renderCompletes es)
  | _ :: es => renderCompletes es
  end.

(* ================================================================== *)
(** ** Vocabulary of the properties *)

(** The option fields of the object. *)
Definition storedOptions (s : TagCloud)
  : Orientation * Js.number * Js.number * ScaleKind * option Js.jsstring :=
  (_orientation s, _minFontSize s, _maxFontSize s, _textScale s, _optionsAsString s).




(** The object lists both font sizes, and both are finite. *)
Definition hasFiniteSizes (o : Options.t) : bool :=
  match Options.minFontSize o, Options.maxFontSize o with
  | Some (Js.Int _ _), Some (Js.Int _ _) => true
  | _, _ => false
  end.

(** What [JSON.stringify] writes for a property; nothing for one it
    leaves out. *)
Definition written (o : Options.t) (k : OptionKey) : Js.jsstring :=
  match stringifyProperty o k with
  | Some p => p
  | None => []
  end.

(** The busy flags agree with the place where the running invocation of
    [_processPendingJob] is suspended, and no completed job is stored while
    one is suspended. *)
Definition consistent (s : TagCloud) : Prop :=
  match suspended s with
  | NotSuspended =>
      _layoutIsUpdating s <> Some true /\ _DOMisUpdating s = false
  | AwaitingTimeout =>
      truthy (_setTimeoutId s) = true /\ truthy (_pendingJob s) = true
      /\ _layoutIsUpdating s <> Some true /\ _DOMisUpdating s = false
      /\ _completedJob s = None
  | AwaitingLayout _ =>
      _setTimeoutId s = None /\ _layoutIsUpdating s = Some true
      /\ _completedJob s = None
  | AwaitingTransitions _ =>
      _setTimeoutId s = None /\ _layoutIsUpdating s <> Some true
      /\ _DOMisUpdating s = true /\ _completedJob s = None
  end.

(** Within one task after the object [s0] was idle: the timeout is armed
    and the pending slot holds the job for [words]; nothing has been
    emitted since. *)
Definition armed (s0 : TagCloud) (words : list Tag.t) (s : TagCloud) : Prop :=
  _pendingJob s = Some (_makeNewJob words s0)
  /\ suspended s = AwaitingTimeout
  /\ truthy (_setTimeoutId s) = true
  /\ effects s = effects s0
  /\ _size s = _size s0
  /\ _layoutIsUpdating s <> Some true
  /\ _DOMisUpdating s = false.

(** Whether [_processPendingJob] runs the layout generator for a job. *)
Definition laysOut (job : Job.t) : bool :=
  match Job.words job with
  | [] => false
  | _ :: _ =>
      Job.refreshLayout job
      && negb ((fst (Job.size job) <=? 0)%N || (snd (Job.size job) <=? 0)%N)
  end.

(** *** Sample data for the examples *)

(** A word as the caller supplies it, and the same word once the layout
    generator has placed it. *)
Definition sampleWord (name : string) (weight : Z) : Tag.t :=
  {| Tag.text := None;
     Tag.rawText := Some (Js.lit name);
     Tag.displayText := Some (Js.lit name);
     Tag.value := Some weight;
     Tag.meta := None;
     Tag.x := None; Tag.y := None; Tag.rotate := None; Tag.size := None |}.

Definition samplePlaced (name : string) (weight x y : Z) : Tag.t :=
  {| Tag.text := Some (Js.lit name);
     Tag.rawText := Some (Js.lit name);
     Tag.displayText := Some (Js.lit name);
     Tag.value := Some weight;
     Tag.meta := None;
     Tag.x := Some x; Tag.y := Some y; Tag.rotate := Some 0; Tag.size := Some 36 |}.

(** What lets a started invocation run to its end: the timeout, the end of
    the layout of the word [name], the end of the transitions on a scene
    of 40 by 40 in the middle of a 400 by 400 element. *)
Definition sampleDrain (name : string) : list Event :=
  [TimeoutFires; LayoutEnds [samplePlaced name 1 0 0];
   TransitionsEnd (BBox.mk 180 180 40 40)].

(** A 400 by 400 cloud, waiting for the transitions of its first job. *)
Definition sampleReconciling : TagCloud :=
  run [CallSetData (Some [sampleWord "a" 1]); TimeoutFires;
       LayoutEnds [samplePlaced "a" 1 0 0]]
      (constructor 400 400).

(** The same cloud with that job completed. *)
Definition sampleCompleted : TagCloud :=
  step sampleReconciling (TransitionsEnd (BBox.mk 180 180 40 40)).

(** Two option objects with the same properties, listed in two orders. *)
Definition sampleOptions : Options.t :=
  {| Options.orientation := single;
     Options.minFontSize := Some (Js.Int 10 eq_refl);
     Options.maxFontSize := Some (Js.Int 36 eq_refl);
     Options.scale := linear;
     Options.keys := [k_orientation; k_minFontSize; k_maxFontSize; k_scale] |}.

Definition sampleOptionsReordered : Options.t :=
  {| Options.orientation := single;
     Options.minFontSize := Some (Js.Int 10 eq_refl);
     Options.maxFontSize := Some (Js.Int 36 eq_refl);
     Options.scale := linear;
     Options.keys := [k_minFontSize; k_maxFontSize; k_orientation; k_scale] |}.

(** An object with the four properties in the usual order. *)
Definition sampleOptionsWith (minFontSize maxFontSize : option Js.number)
                             (scale : ScaleKind) : Options.t :=
  {| Options.orientation := single;
     Options.minFontSize := minFontSize;
     Options.maxFontSize := maxFontSize;
     Options.scale := scale;
     Options.keys := [k_orientation; k_minFontSize; k_maxFontSize; k_scale] |}.


(** *** Further vocabulary *)

(** How many of the three busy conditions of [_isJobRunning] hold. *)
Definition busyCount (s : TagCloud) : nat :=
  ((if truthy (_setTimeoutId s) then 1 else 0)
   + (match _layoutIsUpdating s with Some true => 1 | _ => 0 end)
   + (if _DOMisUpdating s then 1 else 0))%nat.

(** The busy flags agree with the place where the invocation is suspended,
    one flag at a time. *)
Definition exclusive (s : TagCloud) : Prop :=
  match suspended s with
  | NotSuspended =>
      _layoutIsUpdating s <> Some true /\ _DOMisUpdating s = false
  | AwaitingTimeout =>
      truthy (_setTimeoutId s) = true
      /\ _layoutIsUpdating s <> Some true /\ _DOMisUpdating s = false
  | AwaitingLayout _ =>
      _setTimeoutId s = None /\ _layoutIsUpdating s = Some true
      /\ _DOMisUpdating s = false
  | AwaitingTransitions _ =>
      _setTimeoutId s = None /\ _layoutIsUpdating s <> Some true
      /\ _DOMisUpdating s = true
  end.

(** As long as [destroy] was not called: a pending job has an invocation
    under way that will take it, and with none under way nothing is
    pending and no flag is set. *)
Definition attended (s : TagCloud) : Prop :=
  match suspended s with
  | NotSuspended =>
      _pendingJob s = None /\ _setTimeoutId s = None
      /\ _layoutIsUpdating s <> Some true /\ _DOMisUpdating s = false
  | AwaitingTimeout =>
      truthy (_setTimeoutId s) = true /\ truthy (_pendingJob s) = true
      /\ _layoutIsUpdating s <> Some true /\ _DOMisUpdating s = false
  | AwaitingLayout _ =>
      _setTimeoutId s = None /\ _layoutIsUpdating s = Some true
      /\ _DOMisUpdating s = false
  | AwaitingTransitions _ =>
      _setTimeoutId s = None /\ _layoutIsUpdating s <> Some true
      /\ _DOMisUpdating s = true
  end.

Definition isDestroy (e : Event) : bool :=
  match e with
  | CallDestroy => true
  | _ => false
  end.

(** The pending job is the one the current fields would give. *)
Definition pendingIsCurrent (s : TagCloud) : Prop :=
  forall job words,
    _pendingJob s = Some job -> _words s = Some words ->
    Job.size job = _size s
    /\ (Job.refreshLayout job = true -> Job.words job = words).

(** Every layout pass recorded was started for a job that asks for a
    layout, has words, and a viewport with an area. *)
Definition layoutsJustified (es : list Effect) : Prop :=
  forall job, In (LayoutStarted job) es -> laysOut job = true.

(** A timeout was armed and then cleared by [destroy]. *)
Definition frozen (s : TagCloud) : Prop :=
  suspended s = NotSuspended /\ truthy (_setTimeoutId s) = true.

(** The entries of [getDebugInfo] for a list of words. *)
Definition positionOf (tag : Tag.t) : Position.t :=
  {| Position.displayText := Tag.displayText tag;
     Position.rawText := orElse (Tag.rawText tag) (Tag.text tag);
     Position.x := Tag.x tag;
     Position.y := Tag.y tag;
     Position.rotate := Tag.rotate tag |}.

(** The same position, whatever the raw text. *)
Definition samePlace (p q : Position.t) : Prop :=
  Position.displayText p = Position.displayText q
  /\ Position.x p = Position.x q
  /\ Position.y p = Position.y q
  /\ Position.rotate p = Position.rotate q.

(** A call of [setData] with a word set (not [null]). *)
Definition suppliesWords (e : Event) : bool :=
  match e with
  | CallSetData (Some _) => true
  | _ => false
  end.

(** A call of one of the three methods that invalidate the cloud. *)
Definition isInvalidatingCall (e : Event) : bool :=
  match e with
  | CallSetOptions _ | CallSetData _ | CallResize => true
  | _ => false
  end.

(** A word the layout generator left without a numeric placement. *)
Definition unplaced (word : Tag.t) : Prop :=
  Tag.x word = None \/ Tag.y word = None \/ Tag.rotate word = None.

(** The two objects give the property [k] the same value. *)
Definition sameValue (k : OptionKey) (a b : Options.t) : Prop :=
  match k with
  | k_orientation => Options.orientation a = Options.orientation b
  | k_minFontSize => Options.minFontSize a = Options.minFontSize b
  | k_maxFontSize => Options.maxFontSize a = Options.maxFontSize b
  | k_scale => Options.scale a = Options.scale b
  end.

(** A code unit other than the comma and the closing brace. *)
Definition notSeparator (c : N) : Prop := c <> 44%N /\ c <> 125%N.

(** A text that starts with a separator. *)
Definition separated (t : Js.jsstring) : Prop :=
  exists c r, t = c :: r /\ ~ notSeparator c.

(** The key of a word's node: [tag.rawText || tag.text]. *)
Definition rawKey (tag : Tag.t) : option Js.jsstring :=
  orElse (Tag.rawText tag) (Tag.text tag).

(** The number of firings of the timeout among some events. *)
Definition timeoutFirings (events : list Event) : nat :=
  List.length (filter (fun e => match e with TimeoutFires => true | _ => false end) events).

(* ================================================================== *)
(** ** Reasoning about one atomic step *)

(** Unfolds the methods down to assignments and tests. *)
Ltac unfold_methods :=
  unfold step, setOptions, setData, resize, destroy,
    timeoutFires, layoutEnds, transitionsEnd, timeoutCallback,
    afterPickPendingJob, afterUpdateLayout, afterUpdateDOM, finishJob, measure,
    _updateLayout, _updateDOM, _emptyDOM, _invalidate, _processPendingJob,
    _pickPendingJob, _makeJobPreservingLayout, _makeNewJob, emit in *.

(** Uses the known values of the fields. *)
Ltac use_fields :=
  cbn;
  repeat (match goal with
          | H : ?f ?s = ?v |- context [?f ?s] => rewrite H
          end; cbn).

(** Follows every test of the goal both ways, innermost first. *)
Ltac split_tests :=
  repeat (cbn in *; use_fields;
          match goal with
          | |- context [match ?c with _ => _ end] =>
              lazymatch c with
              | context [match _ with _ => _ end] => fail
              | _ => destruct c eqn:?
              end
          end).

Ltac by_cases :=
  unfold_methods; split_tests; cbn in *; try congruence; auto.

(** Fixes the value of one field of [s] everywhere. *)
Ltac fix_field t :=
  let v := fresh "v" in
  let E := fresh "E" in
  remember t as v eqn:E in *; symmetry in E; destruct v.

Ltac fix_flags s :=
  fix_field (suspended s); fix_field (_setTimeoutId s);
  (let v := fresh "v" in
   let E := fresh "E" in
   remember (_layoutIsUpdating s) as v eqn:E in *; symmetry in E;
   destruct v as [[|]|]);
  fix_field (_DOMisUpdating s); fix_field (_pendingJob s).

(** Case analysis of one step from a [consistent] state. *)
Ltac step_cases s :=
  unfold consistent in *; unfold_methods; unfold _isJobRunning in *; cbn in *;
  fix_flags s; cbn in *;
  try solve [intuition congruence];
  split_tests; use_fields; try solve [intuition congruence].

Lemma layoutPasses_app es es' :
  layoutPasses (es ++ es') = layoutPasses es ++ layoutPasses es'.
Proof.
  induction es as [|e es IH]; [reflexivity|].
  destruct e; cbn; rewrite IH; reflexivity.
Qed.

Lemma renderCompletes_app es es' :
  renderCompletes (es ++ es') = (renderCompletes es + renderCompletes es')%nat.
Proof.
  induction es as [|e es IH]; [reflexivity|].
  destruct e; cbn; rewrite IH; reflexivity.
Qed.

Lemma reachable_run events : forall s, reachable s -> reachable (run events s).
Proof.
  induction events as [|e events IH]; intros s Hs; cbn; [exact Hs|].
  apply IH. apply reachable_step, Hs.
Qed.

(** *** One resumption at a time *)

Lemma timeoutFires_hands_over s job :
  suspended s = AwaitingTimeout -> _pendingJob s = Some job ->
  timeoutFires s
  = afterPickPendingJob job
      (set_suspended NotSuspended (set_setTimeoutId None (set_pendingJob None s))).
Proof.
  intros Hsusp Hpending. unfold timeoutFires, timeoutCallback.
  rewrite Hsusp, Hpending. reflexivity.
Qed.

Lemma finishJob_completes job s :
  _pendingJob s = None ->
  finishJob job s = emit RenderComplete (set_completedJob (Some job) s).
Proof. intros H. unfold finishJob. rewrite H. reflexivity. Qed.

Lemma afterUpdateLayout_starts_transitions job s :
  _pendingJob s = None -> _setTimeoutId s = None ->
  afterUpdateLayout job s
  = set_suspended (AwaitingTransitions job)
      (emit (DomUpdateStarted job) (set_DOMisUpdating true s)).
Proof.
  intros Hpending Htimeout. unfold afterUpdateLayout, _updateDOM.
  rewrite Hpending, Htimeout. reflexivity.
Qed.

Lemma layoutEnds_resumes s job laidOut :
  suspended s = AwaitingLayout job ->
  layoutEnds laidOut s
  = afterUpdateLayout
      {| Job.refreshLayout := Job.refreshLayout job;
         Job.size := Job.size job;
         Job.words := laidOut |}
      (set_suspended NotSuspended (set_layoutIsUpdating (Some false) s)).
Proof. intros H. unfold layoutEnds. rewrite H. reflexivity. Qed.

Lemma layoutEnds_not_awaited s laidOut :
  (forall job, suspended s <> AwaitingLayout job) -> layoutEnds laidOut s = s.
Proof.
  intros H. unfold layoutEnds. destruct (suspended s) eqn:E; try reflexivity.
  exfalso. eapply H. reflexivity.
Qed.

Lemma transitionsEnd_resumes s job bbox :
  suspended s = AwaitingTransitions job ->
  transitionsEnd bbox s
  = finishJob job
      (measure (set_suspended NotSuspended
                  (set_DOMisUpdating false (set_getBBox bbox s)))).
Proof. intros H. unfold transitionsEnd. rewrite H. reflexivity. Qed.

Lemma transitionsEnd_not_awaited s bbox :
  (forall job, suspended s <> AwaitingTransitions job) -> transitionsEnd bbox s = s.
Proof.
  intros H. unfold transitionsEnd. destruct (suspended s) eqn:E; try reflexivity.
  exfalso. eapply H. reflexivity.
Qed.

Lemma updateLayout_without_area job s :
  (fst (Job.size job) <= 0 \/ snd (Job.size job) <= 0)%N ->
  _updateLayout job s = Returned s.
Proof.
  intros Hsize. unfold _updateLayout.
  replace ((fst (Job.size job) <=? 0)%N || (snd (Job.size job) <=? 0)%N) with true;
    [reflexivity|].
  symmetry. apply orb_true_iff.
  destruct Hsize as [H|H]; [left|right]; apply N.leb_le; exact H.
Qed.

(** *** The busy flags and the suspended invocation *)

Lemma consistent_new width height : consistent (constructor width height).
Proof. unfold consistent; cbn. split; [discriminate | reflexivity]. Qed.

Lemma consistent_step s e : consistent s -> consistent (step s e).
Proof. intros Hs. destruct e; step_cases s. Qed.

Lemma consistent_reachable s : reachable s -> consistent s.
Proof.
  induction 1; [apply consistent_new | apply consistent_step; assumption].
Qed.

(* ================================================================== *)
(** ** The status *)

Lemma STATUS_step s e : STATUS (step s e) = STATUS s.
Proof. destruct e; by_cases. Qed.

Lemma STATUS_run events : forall s, STATUS (run events s) = STATUS s.
Proof.
  induction events as [|e events IH]; intros s; cbn; [reflexivity|].
  rewrite IH. apply STATUS_step.
Qed.

(** C1 (what the code does). The field declaration gives [STATUS] two
    distinct values, but the constructor assigns 0 to both: in every
    execution [STATUS.COMPLETE] and [STATUS.INCOMPLETE] are the same value,
    and [getStatus] answers it whether or not the last measure found the
    scene inside the viewport, as it does on a new object, whose
    containment flag is not set. *)
Theorem getStatus_same_answer_either_way :
  forall (width height : N) (events : list Event),
    let s := run events (constructor width height) in
    Status.COMPLETE STATUS_initializer <> Status.INCOMPLETE STATUS_initializer
    /\ Status.COMPLETE (STATUS s) = Status.INCOMPLETE (STATUS s)
    /\ getStatus s = Status.COMPLETE (STATUS s)
    /\ _allInViewBox (constructor width height) = false
    /\ getStatus (constructor width height)
       = Status.COMPLETE (STATUS (constructor width height)).
Proof.
  intros width height events s. subst s.
  unfold getStatus. rewrite STATUS_run. cbn.
  repeat split; try discriminate.
  destruct (_allInViewBox _); reflexivity.
Qed.

(* ================================================================== *)
(** ** The completed job *)

(** C2, as stated, fails: as soon as a job starts being processed the
    stored completed job is cleared, long before the new job is
    reconciled; the slot does not keep the previously completed job. *)
Lemma completedJob_cleared_when_processing_starts :
  _completedJob sampleCompleted
  = Some (Job.mk true (400%N, 400%N) [samplePlaced "a" 1 0 0])
  /\ suspended (step sampleCompleted (CallSetData (Some [sampleWord "b" 2])))
     = AwaitingTimeout
  /\ _completedJob (step sampleCompleted (CallSetData (Some [sampleWord "b" 2])))
     = None
  /\ _completedJob (step sampleCompleted (CallSetData (Some [sampleWord "b" 2])))
     <> _completedJob sampleCompleted
  /\ fst (getDebugInfo (step sampleCompleted (CallSetData (Some [sampleWord "b" 2]))))
     = [].
Proof.
  split; [reflexivity|]. split; [reflexivity|]. split; [reflexivity|].
  split; [vm_compute; discriminate | reflexivity].
Qed.

Lemma completedJob_none_while_suspended s :
  consistent s -> suspended s <> NotSuspended -> _completedJob s = None.
Proof.
  unfold consistent. destruct (suspended s); intuition congruence.
Qed.

Lemma completedJob_step s e job :
  consistent s ->
  _completedJob (step s e) = Some job ->
  _completedJob s = Some job
  \/ (renderCompletes (effects (step s e)) = S (renderCompletes (effects s))
      /\ suspended (step s e) = NotSuspended
      /\ _pendingJob (step s e) = None
      /\ ((e = TimeoutFires /\ suspended s = AwaitingTimeout
           /\ _pendingJob s = Some job /\ Job.words job = [])
          \/ (exists bbox, e = TransitionsEnd bbox
                           /\ suspended s = AwaitingTransitions job))).
Proof.
  intros Hs. destruct e; step_cases s.
  all: intros [= <-]; right; rewrite ?renderCompletes_app; cbn;
    rewrite ?Nat.add_0_r, ?Nat.add_1_r; repeat split; eauto.
Qed.

(** C2, amended. In every execution: while an invocation of
    [_processPendingJob] is under way (from the arming of the timeout to
    the end of the reconciliation) the completed-job slot is empty; and a
    step stores a job there only by completing that very job, when the
    timeout hands over a job without words (the scene is emptied) or when
    the transitions of that job's DOM update have all ended, with nothing
    pending, the invocation over, and one [renderComplete] emitted. *)
Theorem completedJob_set_only_on_completion :
  forall (s : TagCloud) (e : Event),
    reachable s ->
    (suspended s <> NotSuspended -> _completedJob s = None)
    /\ (forall job,
          _completedJob (step s e) = Some job ->
          _completedJob s = Some job
          \/ (renderCompletes (effects (step s e)) = S (renderCompletes (effects s))
              /\ suspended (step s e) = NotSuspended
              /\ _pendingJob (step s e) = None
              /\ ((e = TimeoutFires /\ suspended s = AwaitingTimeout
                   /\ _pendingJob s = Some job /\ Job.words job = [])
                  \/ (exists bbox, e = TransitionsEnd bbox
                                   /\ suspended s = AwaitingTransitions job)))).
Proof.
  intros s e Hs. apply consistent_reachable in Hs. split.
  - apply completedJob_none_while_suspended, Hs.
  - intros job. apply completedJob_step, Hs.
Qed.

Lemma completedJob_set_only_on_completion_witness :
  _completedJob sampleReconciling = None
  /\ _completedJob (step sampleReconciling (TransitionsEnd (BBox.mk 180 180 40 40)))
     = Some (Job.mk true (400%N, 400%N) [samplePlaced "a" 1 0 0]).
Proof.
  destruct (completedJob_set_only_on_completion
              sampleReconciling (TransitionsEnd (BBox.mk 180 180 40 40)))
    as [H _].
  - apply reachable_run, reachable_new.
  - split; [apply H; discriminate | reflexivity].
Defined.

(* ================================================================== *)
(** ** Coalescing *)

(** C3, as stated, fails: when the last of the three word sets is empty
    no layout pass runs at all, and none runs either in a viewport without
    area; one [renderComplete] is emitted all the same. *)
Lemma three_setData_last_empty_no_layout :
  idle (constructor 400 400)
  /\ layoutPasses
       (effects
          (run [CallSetData (Some [sampleWord "a" 1]);
                CallSetData (Some [sampleWord "b" 2]);
                CallSetData (Some []);
                TimeoutFires; LayoutEnds []; TransitionsEnd (BBox.mk 0 0 0 0)]
               (constructor 400 400)))
     = []
  /\ List.length
       (layoutPasses
          (effects
             (run [CallSetData (Some [sampleWord "a" 1]);
                   CallSetData (Some [sampleWord "b" 2]);
                   CallSetData (Some []);
                   TimeoutFires; LayoutEnds []; TransitionsEnd (BBox.mk 0 0 0 0)]
                  (constructor 400 400))))
     <> 1%nat
  /\ layoutPasses
       (effects
          (run [CallSetData (Some [sampleWord "a" 1]);
                CallSetData (Some [sampleWord "b" 2]);
                CallSetData (Some [sampleWord "c" 3]);
                TimeoutFires; LayoutEnds [sampleWord "c" 3];
                TransitionsEnd (BBox.mk 0 0 0 0)]
               (constructor 0 400)))
     = [].
Proof.
  split; [vm_compute; repeat split|]. split; [reflexivity|].
  split; [vm_compute; discriminate | reflexivity].
Qed.

Lemma setData_arms_timeout s0 words :
  idle s0 -> armed s0 words (setData (Some words) s0).
Proof.
  intros (Hpending & Hrunning & Hsusp).
  unfold armed, setData, _invalidate, _processPendingJob; cbn.
  change (_isJobRunning _) with (_isJobRunning s0). rewrite Hrunning. cbn.
  unfold _isJobRunning in Hrunning.
  apply orb_false_iff in Hrunning as [Hrunning Hdom].
  apply orb_false_iff in Hrunning as [_ Hlayout].
  repeat split; try assumption.
  destruct (_layoutIsUpdating s0) as [[|]|]; [discriminate | |]; discriminate.
Qed.

Lemma setData_replaces_pending s0 s words words' :
  armed s0 words s -> armed s0 words' (setData (Some words') s).
Proof.
  intros (Hpending & Hsusp & Htimeout & Heffects & Hsize & Hlayout & Hdom).
  unfold armed, setData, _invalidate, _processPendingJob; cbn.
  replace (_isJobRunning _) with true.
  - cbn. unfold _makeNewJob; cbn. rewrite Hsize. repeat split; assumption.
  - unfold _isJobRunning; cbn. rewrite Htimeout. reflexivity.
Qed.

Lemma armed_drains s0 s words laidOut bbox :
  armed s0 words s ->
  let s' := run [TimeoutFires; LayoutEnds laidOut; TransitionsEnd bbox] s in
  let job := {| Job.refreshLayout := true; Job.size := _size s0; Job.words := words |} in
  layoutPasses (effects s')
  = layoutPasses (effects s0) ++ (if laysOut job then [words] else [])
  /\ renderCompletes (effects s') = S (renderCompletes (effects s0))
  /\ _completedJob s'
     = Some {| Job.refreshLayout := true; Job.size := _size s0;
               Job.words := if laysOut job then laidOut else words |}
  /\ idle s'.
Proof.
  intros (Hpending & Hsusp & Htimeout & Heffects & Hsize & Hlayout & Hdom) s' job.
  assert (Hlayout' : match _layoutIsUpdating s with Some b => b | None => false end = false).
  { destruct (_layoutIsUpdating s) as [[|]|]; congruence. }
  subst s'. unfold run, fold_left, step.
  rewrite (timeoutFires_hands_over s job Hsusp Hpending).
  unfold laysOut, afterPickPendingJob, _updateLayout.
  cbn [Job.words Job.refreshLayout Job.size job andb].
  destruct words as [|word words].
  - rewrite finishJob_completes by reflexivity.
    rewrite layoutEnds_not_awaited by (intros; discriminate).
    rewrite transitionsEnd_not_awaited by (intros; discriminate).
    unfold idle, _isJobRunning, _emptyDOM, emit; cbn.
    rewrite !layoutPasses_app, !renderCompletes_app, Heffects, Hlayout'; cbn.
    rewrite !app_nil_r, Nat.add_0_r, Nat.add_1_r. repeat split.
  - destruct ((fst (_size s0) <=? 0)%N || (snd (_size s0) <=? 0)%N);
      cbn [negb].
    + rewrite afterUpdateLayout_starts_transitions by reflexivity.
      rewrite layoutEnds_not_awaited by (intros; discriminate).
      rewrite (transitionsEnd_resumes _ job) by reflexivity.
      rewrite finishJob_completes by reflexivity.
      unfold idle, _isJobRunning, measure, emit; cbn.
      rewrite !layoutPasses_app, !renderCompletes_app, Heffects, Hlayout'; cbn.
      rewrite !app_nil_r, Nat.add_0_r, Nat.add_1_r. repeat split.
    + rewrite (layoutEnds_resumes _ job) by reflexivity.
      rewrite afterUpdateLayout_starts_transitions by reflexivity.
      rewrite (transitionsEnd_resumes _ _) by reflexivity.
      rewrite finishJob_completes by reflexivity.
      unfold idle, _isJobRunning, measure, emit; cbn.
      rewrite !layoutPasses_app, !renderCompletes_app, Heffects; cbn.
      rewrite ?app_nil_r, ?Nat.add_0_r, ?Nat.add_1_r. repeat split.
Qed.

(** C3, amended. From an idle object, three calls of [setData] in a row
    (word sets A, B, C) leave one pending job, that of C, and start
    nothing.  Once the timeout has fired and what the invocation waits for
    has happened, at most one layout pass has run, on C: exactly one if C
    has words and the viewport has an area, none otherwise; exactly one
    [renderComplete] has been emitted; the job of C is the completed job
    and the object is idle again.  A and B were never laid out. *)
Theorem three_setData_one_tick :
  forall (s : TagCloud) (A B C laidOut : list Tag.t) (bbox : BBox.t),
    idle s ->
    let s3 := setData (Some C) (setData (Some B) (setData (Some A) s)) in
    let s' := run [TimeoutFires; LayoutEnds laidOut; TransitionsEnd bbox] s3 in
    let job := {| Job.refreshLayout := true; Job.size := _size s; Job.words := C |} in
    _pendingJob s3 = Some job
    /\ effects s3 = effects s
    /\ layoutPasses (effects s')
       = layoutPasses (effects s) ++ (if laysOut job then [C] else [])
    /\ renderCompletes (effects s') = S (renderCompletes (effects s))
    /\ _completedJob s'
       = Some {| Job.refreshLayout := true; Job.size := _size s;
                 Job.words := if laysOut job then laidOut else C |}
    /\ idle s'.
Proof.
  intros s A B C laidOut bbox Hidle s3 s' job.
  assert (Harmed : armed s C s3).
  { unfold s3. eapply setData_replaces_pending, setData_replaces_pending,
      setData_arms_timeout, Hidle. }
  split; [apply Harmed|]. split; [apply Harmed|].
  apply armed_drains, Harmed.
Qed.

Lemma three_setData_one_tick_witness :
  layoutPasses
    (effects
       (run [CallSetData (Some [sampleWord "a" 1]);
             CallSetData (Some [sampleWord "b" 2]);
             CallSetData (Some [sampleWord "c" 3]);
             TimeoutFires; LayoutEnds [samplePlaced "c" 3 0 0];
             TransitionsEnd (BBox.mk 180 180 40 40)]
            sampleCompleted))
  = [[sampleWord "a" 1]; [sampleWord "c" 3]]
  /\ renderCompletes
       (effects
          (run [CallSetData (Some [sampleWord "a" 1]);
                CallSetData (Some [sampleWord "b" 2]);
                CallSetData (Some [sampleWord "c" 3]);
                TimeoutFires; LayoutEnds [samplePlaced "c" 3 0 0];
                TransitionsEnd (BBox.mk 180 180 40 40)]
               sampleCompleted))
     = 2%nat.
Proof.
  assert (Hidle : idle sampleCompleted) by (vm_compute; repeat split).
  pose proof (three_setData_one_tick
                sampleCompleted [sampleWord "a" 1] [sampleWord "b" 2]
                [sampleWord "c" 3] [samplePlaced "c" 3 0 0]
                (BBox.mk 180 180 40 40) Hidle) as H.
  vm_compute in H. vm_compute.
  destruct H as (_ & _ & H1 & H2 & _). split; [exact H1 | exact H2].
Defined.

(* ================================================================== *)
(** ** Resizing *)

(** C4, as stated, fails: the cloud fits the old and the new viewport and
    the containment flag is set, yet [resize] submits a job with
    [refreshLayout = true], because a job (new data) is being processed. *)
Lemma resize_refreshes_while_job_running :
  wasInside (run [CallSetData (Some [sampleWord "b" 2]); ElementResized 500 500]
                 sampleCompleted) = true
  /\ willBeInside 500 500
       (run [CallSetData (Some [sampleWord "b" 2]); ElementResized 500 500]
            sampleCompleted) = true
  /\ _allInViewBox
       (run [CallSetData (Some [sampleWord "b" 2]); ElementResized 500 500]
            sampleCompleted) = true
  /\ _pendingJob
       (run [CallSetData (Some [sampleWord "b" 2]); ElementResized 500 500;
             CallResize] sampleCompleted)
     = Some (Job.mk true (500%N, 500%N) [sampleWord "b" 2])
  /\ option_map Job.refreshLayout
       (_pendingJob
          (run [CallSetData (Some [sampleWord "b" 2]); ElementResized 500 500;
                CallResize] sampleCompleted))
     <> Some false.
Proof.
  split; [reflexivity|]. split; [reflexivity|]. split; [reflexivity|].
  split; [reflexivity|]. vm_compute. discriminate.
Qed.

Lemma no_layout_without_refresh s job :
  suspended s = AwaitingTimeout ->
  _pendingJob s = Some job ->
  Job.refreshLayout job = false ->
  layoutPasses (effects (timeoutFires s)) = layoutPasses (effects s).
Proof.
  intros Hsusp Hpending Hrefresh.
  rewrite (timeoutFires_hands_over s job Hsusp Hpending).
  unfold afterPickPendingJob. rewrite Hrefresh.
  destruct (Job.words job).
  - rewrite finishJob_completes by reflexivity.
    unfold _emptyDOM, emit; cbn.
    rewrite !layoutPasses_app; cbn. rewrite !app_nil_r. reflexivity.
  - rewrite afterUpdateLayout_starts_transitions by reflexivity.
    unfold emit; cbn. rewrite layoutPasses_app; cbn. apply app_nil_r.
Qed.

(** C4, amended. When [resize] sees dimensions other than the stored ones
    and there are words, it submits a job for the new dimensions.  That job
    has [refreshLayout = false] when the cloud fitted the old viewport and
    fits the new one, the containment flag is set, no job is running and a
    completed job is stored; its words are then those of the completed job
    with their placement ([x], [y], [rotate], [size]) and display text
    unchanged, so that each word's transform is its old placement about
    the centre of the element, and processing it starts no layout pass.  In every
    other case the job has [refreshLayout = true] and carries the current
    words. *)
Theorem resize_reuses_layout_when_idle_and_fitting :
  forall (s : TagCloud) (words : list Tag.t),
    _words s = Some words ->
    (offsetWidth s, offsetHeight s) <> _size s ->
    let fits := wasInside s && willBeInside (offsetWidth s) (offsetHeight s) s
                && _allInViewBox s in
    (forall completedJob,
        fits = true -> _isJobRunning s = false ->
        _completedJob s = Some completedJob ->
        _pendingJob (resize s)
        = Some {| Job.refreshLayout := false;
                  Job.size := (offsetWidth s, offsetHeight s);
                  Job.words := map preserve (Job.words completedJob) |}
        /\ Forall2 (fun tag' tag =>
                      Tag.x tag' = Tag.x tag /\ Tag.y tag' = Tag.y tag
                      /\ Tag.rotate tag' = Tag.rotate tag
                      /\ Tag.size tag' = Tag.size tag
                      /\ Tag.displayText tag' = Tag.displayText tag
                      /\ forall xTranslate yTranslate,
                           positionWord xTranslate yTranslate tag'
                           = positionWord xTranslate yTranslate tag)
                   (map preserve (Job.words completedJob)) (Job.words completedJob)
        /\ affineTransforms
             {| Job.refreshLayout := false;
                Job.size := (offsetWidth s, offsetHeight s);
                Job.words := map preserve (Job.words completedJob) |} s
           = affineTransforms completedJob s)
    /\ (fits = false \/ _isJobRunning s = true \/ _completedJob s = None ->
        _pendingJob (resize s)
        = Some {| Job.refreshLayout := true;
                  Job.size := (offsetWidth s, offsetHeight s);
                  Job.words := words |})
    /\ (forall s' job,
          suspended s' = AwaitingTimeout -> _pendingJob s' = Some job ->
          Job.refreshLayout job = false ->
          layoutPasses (effects (timeoutFires s')) = layoutPasses (effects s')).
Proof.
  intros s words Hwords Hsize fits.
  assert (Hne : (offsetWidth s =? fst (_size s))%N && (offsetHeight s =? snd (_size s))%N
                = false).
  { apply not_true_is_false. intros H. apply andb_true_iff in H as [H1 H2].
    apply N.eqb_eq in H1, H2. apply Hsize. destruct (_size s); cbn in *; congruence. }
  assert (Hresize :
            _pendingJob (resize s)
            = if fits && negb (_isJobRunning s) && truthy (_completedJob s)
              then _makeJobPreservingLayout (set_size (offsetWidth s, offsetHeight s) s)
              else Some {| Job.refreshLayout := true;
                           Job.size := (offsetWidth s, offsetHeight s);
                           Job.words := words |}).
  { unfold resize. rewrite Hne. subst fits. cbv zeta.
    change (_allInViewBox (set_size (offsetWidth s, offsetHeight s) s))
      with (_allInViewBox s).
    destruct (wasInside s && willBeInside (offsetWidth s) (offsetHeight s) s
              && _allInViewBox s);
      unfold _invalidate; cbn; rewrite Hwords;
      unfold _isJobRunning; cbn; unfold _processPendingJob, _pickPendingJob;
      split_tests; reflexivity. }
  split; [|split].
  - intros completedJob Hfits Hrun Hcompleted. split; [|split].
    + rewrite Hresize, Hfits, Hrun, Hcompleted. cbn.
      unfold _makeJobPreservingLayout. cbn. rewrite Hcompleted. reflexivity.
    + induction (Job.words completedJob) as [|tag tags IH]; cbn; constructor.
      * repeat split.
      * exact IH.
    + unfold affineTransforms. cbn [Job.words]. rewrite map_map.
      apply map_ext. intros tag. reflexivity.
  - intros H. rewrite Hresize.
    destruct H as [H | [H | H]]; rewrite H; cbn; rewrite ?andb_false_r; reflexivity.
  - intros s' job. apply no_layout_without_refresh.
Qed.

Lemma resize_reuses_layout_when_idle_and_fitting_witness :
  _pendingJob (resize (step sampleCompleted (ElementResized 500 300)))
  = Some (Job.mk false (500%N, 300%N) [preserve (samplePlaced "a" 1 0 0)]).
Proof.
  assert (Hsize : (offsetWidth (step sampleCompleted (ElementResized 500 300)),
                   offsetHeight (step sampleCompleted (ElementResized 500 300)))
                  <> _size (step sampleCompleted (ElementResized 500 300)))
    by (vm_compute; discriminate).
  destruct (resize_reuses_layout_when_idle_and_fitting
              (step sampleCompleted (ElementResized 500 300))
              [sampleWord "a" 1] eq_refl Hsize)
    as (H & _ & _).
  destruct (H (Job.mk true (400%N, 400%N) [samplePlaced "a" 1 0 0])
              eq_refl eq_refl eq_refl) as (H' & _ & _).
  exact H'.
Defined.

(* ================================================================== *)
(** ** Viewports without area *)

(** C5. For a job whose viewport width or height is not above 0,
    [_updateLayout] returns at once and leaves the object untouched: the
    layout generator is not started.  When such a job is taken from the
    pending slot, no layout pass is recorded, [_layoutIsUpdating] keeps its
    value, and the invocation is not left waiting for the generator: it has
    either completed or moved on to the DOM transitions. *)
Theorem no_layout_without_area :
  forall (job : Job.t) (s : TagCloud),
    (fst (Job.size job) <= 0 \/ snd (Job.size job) <= 0)%N ->
    _updateLayout job s = Returned s
    /\ (suspended s = AwaitingTimeout ->
        _pendingJob s = Some job ->
        layoutPasses (effects (timeoutFires s)) = layoutPasses (effects s)
        /\ _layoutIsUpdating (timeoutFires s) = _layoutIsUpdating s
        /\ (suspended (timeoutFires s) = NotSuspended
            \/ suspended (timeoutFires s) = AwaitingTransitions job)).
Proof.
  intros job s Hsize. split; [apply updateLayout_without_area, Hsize|].
  intros Hsusp Hpending.
  rewrite (timeoutFires_hands_over s job Hsusp Hpending).
  unfold afterPickPendingJob.
  rewrite (updateLayout_without_area job _ Hsize).
  destruct (Job.words job) as [|word words].
  - rewrite finishJob_completes by reflexivity.
    unfold _emptyDOM, emit; cbn.
    rewrite !layoutPasses_app; cbn. rewrite !app_nil_r. auto.
  - assert (Hdom : afterUpdateLayout job
                     (set_suspended NotSuspended
                        (set_setTimeoutId None (set_pendingJob None s)))
                   = set_suspended (AwaitingTransitions job)
                       (emit (DomUpdateStarted job)
                          (set_DOMisUpdating true
                             (set_suspended NotSuspended
                                (set_setTimeoutId None (set_pendingJob None s))))))
      by (apply afterUpdateLayout_starts_transitions; reflexivity).
    destruct (Job.refreshLayout job); rewrite Hdom; unfold emit; cbn;
      rewrite layoutPasses_app; cbn; rewrite app_nil_r; auto.
Qed.

Lemma no_layout_without_area_witness :
  _updateLayout (Job.mk true (0%N, 300%N) [sampleWord "a" 1])
                (setData (Some [sampleWord "a" 1]) (constructor 0 300))
  = Returned (setData (Some [sampleWord "a" 1]) (constructor 0 300))
  /\ layoutPasses
       (effects (timeoutFires (setData (Some [sampleWord "a" 1]) (constructor 0 300))))
     = []
  /\ suspended (timeoutFires (setData (Some [sampleWord "a" 1]) (constructor 0 300)))
     = AwaitingTransitions (Job.mk true (0%N, 300%N) [sampleWord "a" 1]).
Proof.
  destruct (no_layout_without_area
              (Job.mk true (0%N, 300%N) [sampleWord "a" 1])
              (setData (Some [sampleWord "a" 1]) (constructor 0 300)))
    as [H1 H2].
  - left. cbn. lia.
  - split; [exact H1|]. destruct (H2 eq_refl eq_refl) as (H3 & _ & _).
    split; [exact H3 | reflexivity].
Defined.

(* ================================================================== *)
(** ** Options *)

Lemma storedOptions_processPendingJob s :
  storedOptions (_processPendingJob s) = storedOptions s.
Proof. by_cases. Qed.

Lemma storedOptions_invalidate keepLayout s :
  storedOptions (_invalidate keepLayout s) = storedOptions s.
Proof. by_cases. Qed.


Lemma strictEquals_true a b : strictEquals a b = true <-> b = Some a.
Proof.
  unfold strictEquals. destruct b as [b|]; [|split; discriminate].
  destruct (list_eq_dec N.eq_dec a b); split; congruence.
Qed.

(** What [setOptions] leaves in the option fields: nothing new when the
    serialization is the stored one, the normalized values otherwise. *)
Lemma storedOptions_setOptions options s :
  storedOptions (setOptions options s)
  = if strictEquals (stringifyOptions options) (_optionsAsString s)
    then storedOptions s
    else (Options.orientation options,
          Math.min (Options.readMinFontSize options) (Options.readMaxFontSize options),
          Math.max (Options.readMinFontSize options) (Options.readMaxFontSize options),
          Options.scale options,
          Some (stringifyOptions options)).
Proof.
  unfold setOptions.
  destruct (strictEquals (stringifyOptions options) (_optionsAsString s)); [reflexivity|].
  cbv zeta. rewrite storedOptions_invalidate. reflexivity.
Qed.










(** C7, as stated, fails: two option objects that are deeply equal but list
    their properties in a different order serialize differently; the second
    call is not recognised as a repetition and submits a new job, so each of
    the two consecutive calls is followed by a layout pass of its own. *)
Lemma setOptions_deepEqual_not_noop :
  deepEqual sampleOptions sampleOptionsReordered
  /\ idle (run (CallSetOptions sampleOptions :: sampleDrain "a") sampleCompleted)
  /\ setOptions sampleOptionsReordered
       (run (CallSetOptions sampleOptions :: sampleDrain "a") sampleCompleted)
     <> run (CallSetOptions sampleOptions :: sampleDrain "a") sampleCompleted
  /\ option_map Job.refreshLayout
       (_pendingJob
          (setOptions sampleOptionsReordered
             (run (CallSetOptions sampleOptions :: sampleDrain "a") sampleCompleted)))
     = Some true
  /\ List.length (layoutPasses (effects sampleCompleted)) = 1%nat
  /\ List.length
       (layoutPasses
          (effects (run (CallSetOptions sampleOptions :: sampleDrain "a")
                        sampleCompleted)))
     = 2%nat
  /\ List.length
       (layoutPasses
          (effects
             (run (CallSetOptions sampleOptionsReordered :: sampleDrain "a")
                  (run (CallSetOptions sampleOptions :: sampleDrain "a")
                       sampleCompleted))))
     = 3%nat.
Proof.
  split.
  { unfold deepEqual; cbn. repeat split; tauto. }
  split; [vm_compute; auto|].
  split.
  { intros H. apply (f_equal _pendingJob) in H. vm_compute in H. discriminate. }
  repeat split; vm_compute; reflexivity.
Qed.

(** C7, amended. A call of [setOptions] with an object whose JSON
    serialization is that of the options applied last is a no-op: the
    object is left exactly as it was (no field changes, no job is
    submitted, nothing is emitted). *)
Theorem setOptions_same_serialization_noop :
  forall (s : TagCloud) (a b : Options.t),
    stringifyOptions b = stringifyOptions a ->
    setOptions b (setOptions a s) = setOptions a s.
Proof.
  intros s a b Hab.
  assert (Hstored : _optionsAsString (setOptions a s) = Some (stringifyOptions a)).
  { pose proof (storedOptions_setOptions a s) as H.
    destruct (strictEquals (stringifyOptions a) (_optionsAsString s)) eqn:E.
    - apply strictEquals_true in E. unfold storedOptions in H.
      injection H as _ _ _ _ H. congruence.
    - unfold storedOptions in H. injection H as _ _ _ _ H. exact H. }
  unfold setOptions at 1. rewrite Hab.
  replace (strictEquals (stringifyOptions a) (_optionsAsString (setOptions a s)))
    with true; [reflexivity|].
  symmetry. apply strictEquals_true. exact Hstored.
Qed.

Lemma setOptions_same_serialization_noop_witness :
  setOptions sampleOptions (setOptions sampleOptions sampleCompleted)
  = setOptions sampleOptions sampleCompleted.
Proof.
  apply (setOptions_same_serialization_noop sampleCompleted sampleOptions sampleOptions).
  reflexivity.
Defined.

(* ================================================================== *)
(** ** The text size mapper *)

(** A scale of any kind sends its argument, and with it the one point of a
    single-word domain, to a finite number, unless the scale is the log
    scale and the argument is 0. *)
Lemma transform_finite log10 sqrt k v :
  (k = log -> v <> 0) ->
  exists q,
    D3.transform log10 sqrt k
                 (match k with
                  | log => D3.notNegative (D3.ofValue (Some v))
                  | _ => true
                  end)
                 (D3.ofValue (Some v))
    = D3.Finite q.
Proof.
  intros Hlog. unfold D3.transform, D3.ofValue.
  assert (Hcmp : (inject_Z v ?= 0)%Q = (v ?= 0)).
  { unfold Qcompare; cbn. rewrite Z.mul_1_r. reflexivity. }
  assert (Hopp : (- inject_Z v ?= 0)%Q = CompOpp (v ?= 0)).
  { unfold Qcompare; cbn. rewrite Z.mul_1_r. destruct v; reflexivity. }
  destruct k.
  - eauto.
  - specialize (Hlog eq_refl).
    unfold D3.notNegative, D3.isNegative, D3.isPositive, D3.Math_log10, D3.neg.
    rewrite Hcmp. destruct (v ?= 0) eqn:E; cbn [CompOpp] in Hopp.
    + apply Z.compare_eq in E. contradiction.
    + rewrite ?Hopp. eauto.
    + rewrite ?Hcmp. eauto.
  - unfold D3.isNegative, D3.Math_sqrt, D3.neg.
    rewrite Hcmp. destruct (v ?= 0) eqn:E; cbn [CompOpp] in Hopp.
    + rewrite ?Hcmp. eauto.
    + rewrite ?Hopp. eauto.
    + rewrite ?Hcmp. eauto.
Qed.

(** A domain of one finite point: every argument at that point is located
    at 0. *)
Lemma uninterpolateNumber_degenerate q :
  D3.uninterpolateNumber (D3.Finite q) (D3.Finite q) (D3.Finite q)
  = D3.Finite 0.
Proof.
  unfold D3.uninterpolateNumber, D3.sub, D3.neg, D3.add, D3.truthy.
  assert (Hz : (q + - q == 0)%Q) by ring.
  rewrite (proj2 (Qeq_bool_iff _ _) Hz). cbn [negb].
  unfold D3.div. rewrite (proj1 (Qeq_alt _ _) Hz). reflexivity.
Qed.

(** C8, as stated, fails under the log scale: a single word of weight 0
    gives the log scale the domain from [log 0] to [log 0], that is from
    [-Infinity] to [-Infinity]; the weight has no position in it, and the
    size mapper returns [NaN], not [_maxFontSize] (36 here). *)
Lemma single_word_of_weight_0_maps_to_NaN :
  _words
    (run [CallSetOptions
            (sampleOptionsWith (Some (Js.Int 10 eq_refl)) (Some (Js.Int 36 eq_refl)) log);
          CallSetData (Some [sampleWord "a" 0])]
         (constructor 400 400))
  = Some [sampleWord "a" 0]
  /\ _maxFontSize
       (run [CallSetOptions
               (sampleOptionsWith (Some (Js.Int 10 eq_refl)) (Some (Js.Int 36 eq_refl)) log);
             CallSetData (Some [sampleWord "a" 0])]
            (constructor 400 400))
     = Js.Int 36 eq_refl
  /\ (forall log10 sqrt : Q -> Q,
        D3.apply log10 sqrt
          (_makeTextSizeMapper
             (run [CallSetOptions
                     (sampleOptionsWith (Some (Js.Int 10 eq_refl))
                                        (Some (Js.Int 36 eq_refl)) log);
                   CallSetData (Some [sampleWord "a" 0])]
                  (constructor 400 400)))
          (D3.ofValue (getValue (sampleWord "a" 0)))
        = D3.NaN).
Proof.
  split; [reflexivity|]. split; [reflexivity|].
  intros log10 sqrt. reflexivity.
Qed.

(** C8, amended. With exactly one word in the current word set, a word
    whose weight is a number, and a finite [_maxFontSize], the scale built
    by [_makeTextSizeMapper] has the range [maxFontSize, maxFontSize] and
    maps the weight of that word to [_maxFontSize], under the linear and
    the square root scale for every weight, under the log scale for every
    weight other than 0. *)
Theorem single_numeric_word_maps_to_maxFontSize :
  forall (log10 sqrt : Q -> Q) (s : TagCloud) (word : Tag.t) (weight maxFontSize : Z)
         (safe : Js.isSafeInteger maxFontSize = true),
    _words s = Some [word] ->
    getValue word = Some weight ->
    _maxFontSize s = Js.Int maxFontSize safe ->
    (_textScale s = log -> weight <> 0) ->
    D3.range (_makeTextSizeMapper s)
    = (D3.Finite (inject_Z maxFontSize), D3.Finite (inject_Z maxFontSize))
    /\ exists size : Q,
         D3.apply log10 sqrt (_makeTextSizeMapper s) (D3.ofValue (getValue word))
         = D3.Finite size
         /\ (size == inject_Z maxFontSize)%Q.
Proof.
  intros log10 sqrt s word weight maxFontSize safe Hwords Hvalue Hmax Hlog.
  unfold _makeTextSizeMapper. rewrite Hwords, Hmax.
  cbn [List.length Nat.eqb D3.extent fold_left]. rewrite Hvalue.
  split; [reflexivity|].
  unfold D3.apply, D3_SCALING_FUNCTIONS, D3.make, D3.setRange, D3.setDomain.
  cbn [D3.kind D3.positive D3.domain D3.range fst snd D3.ofNumber].
  destruct (transform_finite log10 sqrt (_textScale s) weight Hlog) as [q Hq].
  rewrite Hq, uninterpolateNumber_degenerate.
  eexists. split; [reflexivity|]. ring.
Qed.

Lemma single_numeric_word_maps_to_maxFontSize_witness :
  exists size : Q,
    D3.apply (fun q => q) (fun q => q)
             (_makeTextSizeMapper (setData (Some [sampleWord "a" 7]) (constructor 400 400)))
             (D3.ofValue (getValue (sampleWord "a" 7)))
    = D3.Finite size
    /\ (size == inject_Z 36)%Q.
Proof.
  refine (proj2 (single_numeric_word_maps_to_maxFontSize
                   (fun q => q) (fun q => q)
                   (setData (Some [sampleWord "a" 7]) (constructor 400 400))
                   (sampleWord "a" 7) 7 36 eq_refl eq_refl eq_refl eq_refl _)).
  discriminate.
Defined.

(* ================================================================== *)
(** ** The rotation hash *)

Section HashFold.
Variable max : Z.
Hypothesis max_pos : 0 < max.

(** The running hash never goes negative, so the truncated remainder of
    the source and the mathematical [mod] agree on it. *)
Lemma hash_fold_agrees (chars : list Js.Char) (h : Z) :
  0 <= h ->
  fold_left (fun hash ch => Z.rem (hash * 31 + Z.of_N (Js.charCodeAt0 ch)) max)
            chars h
  = fold_left (fun hash code => (hash * 31 + code) mod max)
              (map (fun ch => Z.of_N (Js.charCodeAt0 ch)) chars) h
  /\ 0 <= fold_left (fun hash code => (hash * 31 + code) mod max)
                    (map (fun ch => Z.of_N (Js.charCodeAt0 ch)) chars) h.
Proof.
  revert h. induction chars as [|ch chars IH]; intros h Hh; cbn [fold_left map].
  - split; [reflexivity | exact Hh].
  - assert (Hnn : 0 <= h * 31 + Z.of_N (Js.charCodeAt0 ch)) by lia.
    rewrite (Z.rem_mod_nonneg _ _ Hnn max_pos).
    apply IH. apply Z.mod_pos_bound. exact max_pos.
Qed.

Lemma hashWithinRange_spec_hash (t : Js.jsstring) :
  hashWithinRange t max = spec_hash t max.
Proof.
  unfold hashWithinRange, spec_hash.
  destruct (hash_fold_agrees (Js.codePoints (Js.stringifyString t)) 0 (Z.le_refl 0))
    as [Heq Hnn].
  rewrite Heq. apply Z.rem_mod_nonneg; [apply Z.abs_nonneg | exact max_pos].
Qed.

Lemma spec_hash_range (t : Js.jsstring) : 0 <= spec_hash t max < max.
Proof. unfold spec_hash. apply Z.mod_pos_bound. exact max_pos. Qed.

End HashFold.

(** C9. The rotation of a word depends on its text and on the orientation
    mode only: 0 under [single]; the hash of the text within 2, times 90,
    under [right angled]; the hash within 12, times 15, minus 90, under
    [multiple].  The hash of the source is the one the specification
    describes (the character codes of the JSON form of the text folded with
    [(hash * 31 + code) mod max], then [abs] and [mod max]); it lies in
    [0, max); two words with the same text get the same rotation. *)
Theorem rotation_is_hash_of_text :
  forall (tag : Tag.t) (t : Js.jsstring),
    Tag.text tag = Some t ->
    ORIENTATIONS single tag = Some 0
    /\ ORIENTATIONS right_angled tag = Some (spec_hash t 2 * 90)
    /\ ORIENTATIONS multiple tag = Some (spec_hash t 12 * 15 - 90)
    /\ (forall max, 0 < max ->
          hashWithinRange t max = spec_hash t max /\ 0 <= hashWithinRange t max < max)
    /\ (forall mode tag',
          Tag.text tag' = Tag.text tag -> ORIENTATIONS mode tag' = ORIENTATIONS mode tag).
Proof.
  intros tag t Ht.
  split; [reflexivity|].
  split; [unfold ORIENTATIONS; rewrite Ht, hashWithinRange_spec_hash by lia; reflexivity|].
  split; [unfold ORIENTATIONS; rewrite Ht, hashWithinRange_spec_hash by lia; reflexivity|].
  split.
  - intros max Hmax. rewrite hashWithinRange_spec_hash by assumption.
    split; [reflexivity | apply spec_hash_range; assumption].
  - intros mode tag' Heq. unfold ORIENTATIONS. rewrite Heq. reflexivity.
Qed.

Lemma rotation_is_hash_of_text_witness :
  ORIENTATIONS single (samplePlaced "foo" 3 0 0) = Some 0
  /\ ORIENTATIONS right_angled (samplePlaced "foo" 3 0 0) = Some 0
  /\ ORIENTATIONS multiple (samplePlaced "foo" 3 0 0) = Some (-60).
Proof.
  destruct (rotation_is_hash_of_text (samplePlaced "foo" 3 0 0) (Js.lit "foo") eq_refl)
    as (H1 & H2 & H3 & _).
  split; [exact H1 | split; [rewrite H2 | rewrite H3]; reflexivity].
Defined.

(* ================================================================== *)
(** ** The empty word list *)

(** C10. When the job taken from the pending slot has no words, the
    containment flag is set, [getStatus] answers [STATUS.COMPLETE], the
    stored cloud width and height are 0, and the job is stored as
    completed; whatever dimensions the element takes afterwards, both
    halves of the test of [resize] on the cloud (it was inside, it will be
    inside) hold. *)
Theorem empty_job_resets_cloud :
  forall (s : TagCloud) (job : Job.t),
    suspended s = AwaitingTimeout ->
    _pendingJob s = Some job ->
    Job.words job = [] ->
    let s' := timeoutFires s in
    _allInViewBox s' = true
    /\ getStatus s' = Status.COMPLETE (STATUS s')
    /\ _cloudWidth s' = 0
    /\ _cloudHeight s' = 0
    /\ _completedJob s' = Some job
    /\ (forall width height,
          let s'' := step s' (ElementResized width height) in
          wasInside s'' = true
          /\ willBeInside (offsetWidth s'') (offsetHeight s'') s'' = true).
Proof.
  intros s job Hsusp Hpending Hwords s'. subst s'.
  rewrite (timeoutFires_hands_over s job Hsusp Hpending).
  unfold afterPickPendingJob. rewrite Hwords.
  rewrite finishJob_completes by reflexivity.
  unfold getStatus, wasInside, willBeInside; cbn.
  repeat split.
  - apply andb_true_iff; split; apply Z.geb_le; apply N2Z.is_nonneg.
  - apply andb_true_iff; split; apply Z.leb_le; apply N2Z.is_nonneg.
Qed.

Lemma empty_job_resets_cloud_witness :
  _cloudWidth (step sampleCompleted (CallSetData (Some []))) = 40
  /\ _allInViewBox (timeoutFires (step sampleCompleted (CallSetData (Some [])))) = true
  /\ _cloudWidth (timeoutFires (step sampleCompleted (CallSetData (Some [])))) = 0
  /\ _cloudHeight (timeoutFires (step sampleCompleted (CallSetData (Some [])))) = 0.
Proof.
  destruct (empty_job_resets_cloud
              (step sampleCompleted (CallSetData (Some [])))
              (Job.mk true (400%N, 400%N) []) eq_refl eq_refl eq_refl)
    as (H1 & _ & H2 & H3 & _).
  split; [reflexivity|]. split; [exact H1|]. split; [exact H2 | exact H3].
Defined.

(* ================================================================== *)
(** ** Further properties of the pipeline *)

Lemma run_app events events' s :
  run (events ++ events') s = run events' (run events s).
Proof. unfold run. apply fold_left_app. Qed.

Lemma consistent_run events : forall s, consistent s -> consistent (run events s).
Proof.
  induction events as [|e events IH]; intros s Hs; cbn; [exact Hs|].
  apply IH, consistent_step, Hs.
Qed.

(** *** One busy flag at a time *)

Lemma exclusive_new width height : exclusive (constructor width height).
Proof. unfold exclusive; cbn. split; [discriminate | reflexivity]. Qed.

Lemma exclusive_step s e : exclusive s -> exclusive (step s e).
Proof. intros Hs. unfold exclusive in *. destruct e; step_cases s. Qed.

Lemma exclusive_busyCount s : exclusive s -> (busyCount s <= 1)%nat.
Proof.
  unfold exclusive, busyCount.
  destruct (suspended s), (_setTimeoutId s), (_layoutIsUpdating s) as [[|]|],
    (_DOMisUpdating s); cbn; intuition (try congruence; try lia).
Qed.

(** X1. In every execution at most one of the three busy conditions holds:
    the timeout handle is set, the layout generator runs, or the DOM
    update runs.  In particular the layout and the DOM update never
    overlap. *)
Theorem one_busy_flag_at_a_time :
  forall (width height : N) (events : list Event),
    let s := run events (constructor width height) in
    (busyCount s <= 1)%nat
    /\ ~ (_layoutIsUpdating s = Some true /\ _DOMisUpdating s = true).
Proof.
  intros width height events s.
  assert (H : exclusive s).
  { subst s. generalize (exclusive_new width height).
    generalize (constructor width height).
    induction events as [|e events IH]; intros s0 Hs0; cbn; [exact Hs0|].
    apply IH, exclusive_step, Hs0. }
  apply exclusive_busyCount in H. split; [exact H|].
  intros [Hl Hd]. unfold busyCount in H. rewrite Hl, Hd in H.
  destruct (truthy (_setTimeoutId s)); cbn in H; lia.
Qed.

(** *** Layout passes are justified *)

Lemma layoutsJustified_app es es' :
  layoutsJustified es -> layoutsJustified es' -> layoutsJustified (es ++ es').
Proof.
  intros H H' job Hin. apply in_app_or in Hin as [Hin|Hin]; [apply H | apply H']; exact Hin.
Qed.

Lemma layoutsJustified_other e :
  (forall job, e <> LayoutStarted job) -> layoutsJustified [e].
Proof.
  intros He job [Hin|[]]. exfalso. eapply He. exact Hin.
Qed.

Lemma layoutsJustified_started job : laysOut job = true -> layoutsJustified [LayoutStarted job].
Proof. intros H job' [Hin|[]]. injection Hin as <-. exact H. Qed.

Lemma layoutsJustified_step s e :
  layoutsJustified (effects s) -> layoutsJustified (effects (step s e)).
Proof.
  intros Hs. destruct e; by_cases;
    repeat (apply layoutsJustified_app;
            [| first [ apply layoutsJustified_other; discriminate
                     | apply layoutsJustified_started; unfold laysOut; use_fields;
                       reflexivity ]]);
    auto.
Qed.

Lemma layoutsJustified_run events :
  forall s, layoutsJustified (effects s) -> layoutsJustified (effects (run events s)).
Proof.
  induction events as [|e events IH]; intros s Hs; cbn; [exact Hs|].
  apply IH, layoutsJustified_step, Hs.
Qed.

(** X2. In every execution, each layout pass was started for a job that
    asks for a new layout, has at least one word, and whose viewport width
    and height are both above 0. *)
Theorem layout_only_for_words_in_a_viewport :
  forall (width height : N) (events : list Event) (job : Job.t),
    In (LayoutStarted job) (effects (run events (constructor width height))) ->
    Job.refreshLayout job = true
    /\ Job.words job <> []
    /\ (0 < fst (Job.size job))%N
    /\ (0 < snd (Job.size job))%N.
Proof.
  intros width height events job Hin.
  assert (H : layoutsJustified (effects (run events (constructor width height)))).
  { apply layoutsJustified_run. intros job' []. }
  specialize (H job Hin). unfold laysOut in H.
  destruct (Job.words job); [discriminate|].
  apply andb_true_iff in H as [Hrefresh Hsize].
  apply negb_true_iff, orb_false_iff in Hsize as [Hw Hh].
  apply N.leb_gt in Hw, Hh.
  repeat split; [exact Hrefresh | discriminate | exact Hw | exact Hh].
Qed.

Lemma layout_only_for_words_in_a_viewport_witness :
  Job.words (Job.mk true (400%N, 400%N) [sampleWord "a" 1]) <> []
  /\ (0 < fst (Job.size (Job.mk true (400%N, 400%N) [sampleWord "a" 1])))%N.
Proof.
  destruct (layout_only_for_words_in_a_viewport
              400 400 [CallSetData (Some [sampleWord "a" 1]); TimeoutFires]
              (Job.mk true (400%N, 400%N) [sampleWord "a" 1]))
    as (_ & H1 & H2 & _).
  - left. reflexivity.
  - split; [exact H1 | exact H2].
Defined.

(** *** What [renderComplete] tells *)

Lemma renderComplete_step s e :
  consistent s ->
  renderCompletes (effects (step s e)) <> renderCompletes (effects s) ->
  renderCompletes (effects (step s e)) = S (renderCompletes (effects s))
  /\ (exists job, _completedJob (step s e) = Some job)
  /\ idle (step s e).
Proof.
  intros Hs. unfold idle. destruct e; step_cases s.
  all: rewrite ?renderCompletes_app; cbn; rewrite ?Nat.add_0_r, ?Nat.add_1_r;
    intros Hne; try (exfalso; apply Hne; reflexivity);
    repeat split; eauto; intuition congruence.
Qed.

(** X3. In every execution a step emits at most one [renderComplete], and
    when it emits one the object is idle right after it (nothing pending,
    no busy flag, no invocation under way) and a completed job is
    stored. *)
Theorem renderComplete_means_idle :
  forall (s : TagCloud) (e : Event),
    reachable s ->
    renderCompletes (effects (step s e)) = renderCompletes (effects s)
    \/ (renderCompletes (effects (step s e)) = S (renderCompletes (effects s))
        /\ (exists job, _completedJob (step s e) = Some job)
        /\ idle (step s e)).
Proof.
  intros s e Hs. apply consistent_reachable in Hs.
  destruct (Nat.eq_dec (renderCompletes (effects (step s e)))
                       (renderCompletes (effects s))) as [Heq|Hne];
    [left; exact Heq | right; apply renderComplete_step; assumption].
Qed.

Lemma renderComplete_means_idle_witness :
  renderCompletes
    (effects (step sampleReconciling (TransitionsEnd (BBox.mk 180 180 40 40))))
  = renderCompletes (effects sampleReconciling)
  \/ (renderCompletes
        (effects (step sampleReconciling (TransitionsEnd (BBox.mk 180 180 40 40))))
      = S (renderCompletes (effects sampleReconciling))
      /\ (exists job,
            _completedJob (step sampleReconciling (TransitionsEnd (BBox.mk 180 180 40 40)))
            = Some job)
      /\ idle (step sampleReconciling (TransitionsEnd (BBox.mk 180 180 40 40)))).
Proof.
  apply (renderComplete_means_idle
           sampleReconciling (TransitionsEnd (BBox.mk 180 180 40 40))).
  apply reachable_run, reachable_new.
Defined.

(** *** No pending job is left unattended *)

Lemma attended_new width height : attended (constructor width height).
Proof. unfold attended; cbn. repeat split; discriminate. Qed.

Lemma attended_step s e : isDestroy e = false -> attended s -> attended (step s e).
Proof.
  intros He Hs. unfold attended in *.
  destruct e; try discriminate; step_cases s.
Qed.

Lemma attended_run events :
  forall s, forallb (fun e => negb (isDestroy e)) events = true ->
            attended s -> attended (run events s).
Proof.
  induction events as [|e events IH]; intros s He Hs; cbn in *; [exact Hs|].
  apply andb_true_iff in He as [He Hes].
  apply IH; [exact Hes|]. apply attended_step; [|exact Hs].
  apply negb_true_iff. exact He.
Qed.

(** X4. As long as [destroy] is not called, a pending job is never left
    unattended: whenever the pending slot is filled, an invocation of
    [_processPendingJob] is under way (waiting for the timeout, the layout
    or the transitions) and will take it; and whenever none is under way,
    the object is idle. *)
Theorem pending_job_is_attended :
  forall (width height : N) (events : list Event),
    forallb (fun e => negb (isDestroy e)) events = true ->
    let s := run events (constructor width height) in
    (_pendingJob s <> None -> suspended s <> NotSuspended)
    /\ (suspended s = NotSuspended -> idle s).
Proof.
  intros width height events He s.
  assert (H : attended s) by (apply attended_run; [exact He | apply attended_new]).
  unfold attended, idle, _isJobRunning in *.
  destruct (suspended s); split; intros; try discriminate; try congruence.
  - destruct H as (Hp & _). contradiction.
  - destruct H as (Hp & Ht & Hl & Hd). rewrite Ht, Hd.
    destruct (_layoutIsUpdating s) as [[|]|]; cbn; intuition congruence.
Qed.

Lemma pending_job_is_attended_witness :
  suspended (run [CallSetData (Some [sampleWord "a" 1]); TimeoutFires;
                  CallSetData (Some [sampleWord "b" 2])] (constructor 400 400))
  <> NotSuspended.
Proof.
  refine (proj1 (pending_job_is_attended
                   400 400
                   [CallSetData (Some [sampleWord "a" 1]); TimeoutFires;
                    CallSetData (Some [sampleWord "b" 2])] eq_refl) _).
  discriminate.
Defined.

(** *** The pending job is up to date *)

Lemma pendingIsCurrent_step s e : pendingIsCurrent s -> pendingIsCurrent (step s e).
Proof.
  unfold pendingIsCurrent. intros Hs job words.
  destruct e; by_cases;
    try (intros [= <-] [= <-]; cbn; split; [reflexivity | intros; congruence]);
    try (intros [= <-] Hw; cbn; split; [reflexivity | intros; congruence]);
    try (intros Hj Hw; eapply Hs; eassumption).
  all: try discriminate.
Qed.

(** X5. In every execution, with a word set present, the pending job is
    the one the current fields give: its size is the stored viewport size
    and, when it asks for a new layout, its words are the current word
    set.  A later [setData], [setOptions] or [resize] never leaves an
    older job in the slot. *)
Theorem pending_job_is_current :
  forall (width height : N) (events : list Event) (job : Job.t) (words : list Tag.t),
    let s := run events (constructor width height) in
    _pendingJob s = Some job ->
    _words s = Some words ->
    Job.size job = _size s
    /\ (Job.refreshLayout job = true -> Job.words job = words).
Proof.
  intros width height events job words s.
  assert (H : pendingIsCurrent s).
  { subst s. assert (H0 : pendingIsCurrent (constructor width height))
      by (intros job' words' Hj; discriminate).
    revert H0. generalize (constructor width height). clear.
    induction events as [|e events IH]; intros s0 Hs0; cbn; [exact Hs0|].
    apply IH, pendingIsCurrent_step, Hs0. }
  apply H.
Qed.

Lemma pending_job_is_current_witness :
  Job.size (Job.mk true (500%N, 300%N) [sampleWord "b" 2]) = (500%N, 300%N).
Proof.
  exact (proj1 (pending_job_is_current
                  400 400
                  [CallSetData (Some [sampleWord "a" 1]); ElementResized 500 300;
                   CallResize; CallSetData (Some [sampleWord "b" 2])]
                  (Job.mk true (500%N, 300%N) [sampleWord "b" 2])
                  [sampleWord "b" 2] eq_refl eq_refl)).
Defined.

(** *** A job superseded while it is processed *)

Lemma processPendingJob_arms s job :
  _pendingJob s = Some job -> _isJobRunning s = false ->
  _processPendingJob s
  = set_suspended AwaitingTimeout
      (set_timeouts (Pos.succ (timeouts s))
         (set_setTimeoutId (Some (timeouts s)) (set_completedJob None s))).
Proof.
  intros Hp Hr. unfold _processPendingJob. rewrite Hp, Hr. reflexivity.
Qed.

(** X6. When a newer job is already pending at the end of the layout, the
    DOM update of the job just laid out is skipped: no transitions are
    started, nothing is emitted and the job is not stored as completed;
    the scene is measured as it stands and the timeout is armed again, so
    that the next firing hands over the pending job. *)
Theorem superseded_layout_is_not_rendered :
  forall (s : TagCloud) (job next : Job.t) (laidOut : list Tag.t),
    reachable s ->
    suspended s = AwaitingLayout job ->
    _pendingJob s = Some next ->
    let s' := step s (LayoutEnds laidOut) in
    effects s' = effects s
    /\ _completedJob s' = None
    /\ _layoutIsUpdating s' = Some false
    /\ _DOMisUpdating s' = false
    /\ _cloudWidth s' = BBox.width (getBBox s)
    /\ _cloudHeight s' = BBox.height (getBBox s)
    /\ suspended s' = AwaitingTimeout
    /\ timeoutFires s'
       = afterPickPendingJob next
           (set_suspended NotSuspended
              (set_setTimeoutId None (set_pendingJob None s'))).
Proof.
  intros s job next laidOut Hs Hsusp Hpending s'.
  apply consistent_reachable in Hs. unfold consistent in Hs. rewrite Hsusp in Hs.
  destruct Hs as (Htimeout & Hlayout & Hcompleted).
  assert (Hs' : s' = _processPendingJob
                       (measure
                          (set_DOMisUpdating false
                             (set_suspended NotSuspended
                                (set_layoutIsUpdating (Some false) s))))).
  { subst s'. cbn [step]. rewrite (layoutEnds_resumes s job laidOut Hsusp).
    unfold afterUpdateLayout, _updateDOM. cbn. rewrite Hpending. cbn.
    unfold afterUpdateDOM, finishJob, measure. cbn. rewrite Hpending. reflexivity. }
  rewrite (processPendingJob_arms _ next) in Hs';
    [| cbn; exact Hpending
     | unfold _isJobRunning, measure; cbn; rewrite Htimeout; reflexivity].
  assert (Hfire : timeoutFires s'
                  = afterPickPendingJob next
                      (set_suspended NotSuspended
                         (set_setTimeoutId None (set_pendingJob None s'))))
    by (apply timeoutFires_hands_over; rewrite Hs'; cbn; [reflexivity | exact Hpending]).
  clearbody s'.
  split; [rewrite Hs'; reflexivity|]. split; [rewrite Hs'; reflexivity|].
  split; [rewrite Hs'; reflexivity|]. split; [rewrite Hs'; reflexivity|].
  split; [rewrite Hs'; reflexivity|]. split; [rewrite Hs'; reflexivity|].
  split; [rewrite Hs'; reflexivity | exact Hfire].
Qed.

Lemma superseded_layout_is_not_rendered_witness :
  effects (step (run [CallSetData (Some [sampleWord "a" 1]); TimeoutFires;
                      CallSetData (Some [sampleWord "b" 2])] (constructor 400 400))
                (LayoutEnds [samplePlaced "a" 1 0 0]))
  = effects (run [CallSetData (Some [sampleWord "a" 1]); TimeoutFires;
                  CallSetData (Some [sampleWord "b" 2])] (constructor 400 400)).
Proof.
  refine (proj1 (superseded_layout_is_not_rendered
                   (run [CallSetData (Some [sampleWord "a" 1]); TimeoutFires;
                         CallSetData (Some [sampleWord "b" 2])] (constructor 400 400))
                   (Job.mk true (400%N, 400%N) [sampleWord "a" 1])
                   (Job.mk true (400%N, 400%N) [sampleWord "b" 2])
                   [samplePlaced "a" 1 0 0] _ eq_refl eq_refl)).
  apply reachable_run, reachable_new.
Defined.

(** X7. When a newer job is pending at the end of the transitions, the
    job just rendered is not stored as completed and no [renderComplete]
    is emitted for it: the scene is measured and the timeout armed again
    for the pending job. *)
Theorem superseded_render_is_not_completed :
  forall (s : TagCloud) (job next : Job.t) (bbox : BBox.t),
    reachable s ->
    suspended s = AwaitingTransitions job ->
    _pendingJob s = Some next ->
    let s' := step s (TransitionsEnd bbox) in
    effects s' = effects s
    /\ _completedJob s' = None
    /\ _pendingJob s' = Some next
    /\ _cloudWidth s' = BBox.width bbox
    /\ _cloudHeight s' = BBox.height bbox
    /\ suspended s' = AwaitingTimeout.
Proof.
  intros s job next bbox Hs Hsusp Hpending s'.
  apply consistent_reachable in Hs. unfold consistent in Hs. rewrite Hsusp in Hs.
  destruct Hs as (Htimeout & Hlayout & Hdom & Hcompleted).
  assert (Hl : match _layoutIsUpdating s with Some b => b | None => false end = false).
  { destruct (_layoutIsUpdating s) as [[|]|]; congruence. }
  subst s'. cbn [step]. rewrite (transitionsEnd_resumes s job bbox Hsusp).
  unfold finishJob. cbn. rewrite Hpending. cbn.
  rewrite (processPendingJob_arms _ next);
    [| cbn; exact Hpending
     | unfold _isJobRunning, measure; cbn; rewrite Htimeout, Hl; reflexivity].
  cbn. repeat split. exact Hpending.
Qed.

Lemma superseded_render_is_not_completed_witness :
  _completedJob (step (step sampleReconciling (CallSetData (Some [sampleWord "b" 2])))
                      (TransitionsEnd (BBox.mk 0 0 10 10)))
  = None.
Proof.
  refine (proj1 (proj2 (superseded_render_is_not_completed
                          (step sampleReconciling (CallSetData (Some [sampleWord "b" 2])))
                          (Job.mk true (400%N, 400%N) [samplePlaced "a" 1 0 0])
                          (Job.mk true (400%N, 400%N) [sampleWord "b" 2])
                          (BBox.mk 0 0 10 10) _ eq_refl eq_refl))).
  apply reachable_step, reachable_run, reachable_new.
Defined.

(** *** [destroy] with the timeout armed *)

Lemma frozen_step s e :
  frozen s -> frozen (step s e) /\ effects (step s e) = effects s.
Proof.
  unfold frozen. intros (Hsusp & Htimeout).
  destruct (_setTimeoutId s) as [id|] eqn:Eid; [clear Htimeout | discriminate].
  destruct e; unfold_methods; unfold _isJobRunning; split_tests; use_fields; auto.
Qed.

(** X8. [destroy] clears an armed timeout but leaves its handle in
    [_setTimeoutId]: from then on the object counts as busy for ever.
    Whatever is called or happens afterwards, no job is processed: nothing
    more is emitted (no layout pass, no DOM update, no [renderComplete])
    and no invocation is under way. *)
Theorem destroy_with_armed_timeout_freezes :
  forall (s : TagCloud) (events : list Event),
    reachable s ->
    suspended s = AwaitingTimeout ->
    let s' := run events (destroy s) in
    effects s' = effects s
    /\ suspended s' = NotSuspended
    /\ _isJobRunning s' = true.
Proof.
  intros s events Hs Hsusp s'.
  apply consistent_reachable in Hs. unfold consistent in Hs. rewrite Hsusp in Hs.
  destruct Hs as (Htimeout & _).
  assert (H0 : frozen (destroy s) /\ effects (destroy s) = effects s).
  { unfold frozen, destroy. rewrite Hsusp. cbn. auto. }
  assert (H : frozen s' /\ effects s' = effects s).
  { subst s'. revert H0. generalize (destroy s).
    induction events as [|e events IH]; intros s0 Hs0; cbn; [exact Hs0|].
    apply IH. destruct Hs0 as [Hf He].
    destruct (frozen_step s0 e Hf) as [Hf' He']. split; [exact Hf' | congruence]. }
  destruct H as ((Hsusp' & Htimeout') & Heffects).
  repeat split; [exact Heffects | exact Hsusp' |].
  unfold _isJobRunning. rewrite Htimeout'. reflexivity.
Qed.

Lemma destroy_with_armed_timeout_freezes_witness :
  effects (run (CallSetData (Some [sampleWord "b" 2]) :: sampleDrain "b")
               (destroy (step (constructor 400 400)
                              (CallSetData (Some [sampleWord "a" 1])))))
  = effects (step (constructor 400 400) (CallSetData (Some [sampleWord "a" 1]))).
Proof.
  refine (proj1 (destroy_with_armed_timeout_freezes
                   (step (constructor 400 400) (CallSetData (Some [sampleWord "a" 1])))
                   (CallSetData (Some [sampleWord "b" 2]) :: sampleDrain "b")
                   _ eq_refl)).
  apply reachable_step, reachable_new.
Defined.

(** *** Resizing again *)

Lemma element_and_size_invalidate keepLayout s :
  offsetWidth (_invalidate keepLayout s) = offsetWidth s
  /\ offsetHeight (_invalidate keepLayout s) = offsetHeight s
  /\ _size (_invalidate keepLayout s) = _size s.
Proof. by_cases. Qed.

(** X9. [resize] is idempotent: called again while the element keeps its
    dimensions, it changes nothing (no second job, no restart). *)
Theorem resize_twice_is_resize_once :
  forall s : TagCloud, resize (resize s) = resize s.
Proof.
  intros s.
  assert (Hr : resize s = s
               \/ exists keepLayout,
                    resize s
                    = _invalidate keepLayout
                        (set_size (offsetWidth s, offsetHeight s) s)).
  { unfold resize.
    destruct ((offsetWidth s =? fst (_size s))%N && (offsetHeight s =? snd (_size s))%N);
      [left; reflexivity | right]. cbv zeta.
    destruct (wasInside s && willBeInside (offsetWidth s) (offsetHeight s) s
              && _allInViewBox (set_size (offsetWidth s, offsetHeight s) s));
      eexists; reflexivity. }
  destruct Hr as [Hr | [keepLayout Hr]]; rewrite Hr; [exact Hr|].
  unfold resize.
  destruct (element_and_size_invalidate
              keepLayout (set_size (offsetWidth s, offsetHeight s) s))
    as (Hw & Hh & Hsize).
  rewrite Hw, Hh, Hsize. cbn. rewrite !N.eqb_refl. reflexivity.
Qed.

(** *** Before any data *)

Lemma no_words_step s e :
  suppliesWords e = false ->
  _words s = None /\ _pendingJob s = None /\ suspended s = NotSuspended
  /\ _completedJob s = None /\ effects s = [] ->
  _words (step s e) = None /\ _pendingJob (step s e) = None
  /\ suspended (step s e) = NotSuspended
  /\ _completedJob (step s e) = None /\ effects (step s e) = [].
Proof.
  intros He (Hw & Hp & Hsusp & Hc & Hef).
  destruct e as [options|data| | | | | | |]; try (destruct data; [discriminate|]);
    unfold_methods; split_tests; use_fields; auto.
Qed.

(** X10. As long as no word set has been supplied, whatever else is
    called ([setOptions], [resize], [setData(null)], [destroy]) or happens,
    the pipeline never starts: no job is submitted, nothing is emitted,
    and [getDebugInfo] reports no position. *)
Theorem nothing_happens_without_words :
  forall (width height : N) (events : list Event),
    forallb (fun e => negb (suppliesWords e)) events = true ->
    let s := run events (constructor width height) in
    _pendingJob s = None
    /\ suspended s = NotSuspended
    /\ effects s = []
    /\ fst (getDebugInfo s) = [].
Proof.
  intros width height events He s.
  assert (H : _words s = None /\ _pendingJob s = None /\ suspended s = NotSuspended
              /\ _completedJob s = None /\ effects s = []).
  { subst s.
    assert (H0 : _words (constructor width height) = None
                 /\ _pendingJob (constructor width height) = None
                 /\ suspended (constructor width height) = NotSuspended
                 /\ _completedJob (constructor width height) = None
                 /\ effects (constructor width height) = []) by (cbn; auto).
    revert He H0. generalize (constructor width height).
    induction events as [|e events IH]; intros s0 He Hs0; cbn in *; [exact Hs0|].
    apply andb_true_iff in He as [He Hes].
    apply IH; [exact Hes|]. apply no_words_step; [|exact Hs0].
    apply negb_true_iff. exact He. }
  destruct H as (_ & Hp & Hsusp & Hc & Hef).
  repeat split; try assumption. unfold getDebugInfo. rewrite Hc. reflexivity.
Qed.

Lemma nothing_happens_without_words_witness :
  effects (run [CallSetOptions sampleOptions; ElementResized 10 10; CallResize;
                CallSetData None; TimeoutFires] (constructor 400 400))
  = [].
Proof.
  destruct (nothing_happens_without_words
              400 400
              [CallSetOptions sampleOptions; ElementResized 10 10; CallResize;
               CallSetData None; TimeoutFires] eq_refl)
    as (_ & _ & H & _).
  exact H.
Defined.

(** *** Calls while a job is running *)

(** X11. While a job is running, a call of [setOptions], [setData] or
    [resize] starts nothing and interrupts nothing: the effects, the
    suspended invocation, the busy flags, the timeout handle and the
    completed-job slot are left as they are, and if the call fills the
    pending slot it does so with a job that asks for a new layout. *)
Theorem calls_while_running_only_replace_pending :
  forall (s : TagCloud) (e : Event),
    isInvalidatingCall e = true ->
    _isJobRunning s = true ->
    let s' := step s e in
    effects s' = effects s
    /\ suspended s' = suspended s
    /\ _completedJob s' = _completedJob s
    /\ _setTimeoutId s' = _setTimeoutId s
    /\ _layoutIsUpdating s' = _layoutIsUpdating s
    /\ _DOMisUpdating s' = _DOMisUpdating s
    /\ (_pendingJob s' = _pendingJob s
        \/ exists job, _pendingJob s' = Some job /\ Job.refreshLayout job = true).
Proof.
  intros s e He Hrun. unfold _isJobRunning in Hrun.
  destruct e; try discriminate;
    unfold_methods; unfold _isJobRunning; split_tests; use_fields;
    try (rewrite Hrun in *; discriminate);
    repeat split; eauto.
  all: try (repeat match goal with
                   | H : _ && _ = true |- _ => apply andb_true_iff in H; destruct H
                   | H : negb _ = true |- _ => apply negb_true_iff in H
                   end; congruence).
Qed.

Lemma calls_while_running_only_replace_pending_witness :
  effects (step sampleReconciling (CallSetData (Some [sampleWord "b" 2])))
  = effects sampleReconciling.
Proof.
  exact (proj1 (calls_while_running_only_replace_pending
                  sampleReconciling (CallSetData (Some [sampleWord "b" 2]))
                  eq_refl eq_refl)).
Defined.

(** *** What [getDebugInfo] reports across a layout-preserving resize *)

Lemma getDebugInfo_positions s :
  fst (getDebugInfo s)
  = match _completedJob s with
    | Some completedJob => map positionOf (Job.words completedJob)
    | None => []
    end.
Proof. unfold getDebugInfo. destruct (_completedJob s); reflexivity. Qed.

Lemma samePlace_preserve words :
  Forall2 samePlace (map positionOf (map preserve words)) (map positionOf words).
Proof.
  induction words as [|word words IH]; cbn; constructor; [|exact IH].
  unfold samePlace; cbn. auto.
Qed.

Lemma resize_keeping_layout s words completedJob :
  idle s ->
  _words s = Some words ->
  _completedJob s = Some completedJob ->
  (offsetWidth s, offsetHeight s) <> _size s ->
  wasInside s && willBeInside (offsetWidth s) (offsetHeight s) s && _allInViewBox s = true ->
  resize s
  = _pickPendingJob
      (set_completedJob None
         (set_pendingJob
            (Some {| Job.refreshLayout := false;
                     Job.size := (offsetWidth s, offsetHeight s);
                     Job.words := map preserve (Job.words completedJob) |})
            (set_size (offsetWidth s, offsetHeight s) s))).
Proof.
  intros (Hpending & Hrunning & Hsusp) Hwords Hcompleted Hsize Hfits.
  assert (Hne : (offsetWidth s =? fst (_size s))%N && (offsetHeight s =? snd (_size s))%N
                = false).
  { apply not_true_is_false. intros H. apply andb_true_iff in H as [H1 H2].
    apply N.eqb_eq in H1, H2. apply Hsize. destruct (_size s); cbn in *; congruence. }
  unfold resize. rewrite Hne. cbv zeta.
  change (_allInViewBox (set_size (offsetWidth s, offsetHeight s) s))
    with (_allInViewBox s).
  rewrite Hfits. unfold _invalidate. cbn [_words set_size]. rewrite Hwords.
  change (_isJobRunning (set_size (offsetWidth s, offsetHeight s) s))
    with (_isJobRunning s).
  rewrite Hrunning. cbn [negb andb _completedJob set_size]. rewrite Hcompleted.
  cbn [truthy]. unfold _makeJobPreservingLayout. cbn [_completedJob set_size _size].
  rewrite Hcompleted. unfold _processPendingJob. cbn [_pendingJob set_pendingJob truthy negb].
  change (_isJobRunning (set_pendingJob _ (set_size _ s))) with (_isJobRunning s).
  rewrite Hrunning. reflexivity.
Qed.

(** X12. A layout-preserving resize keeps the positions: from an idle
    object holding a completed job, whose cloud fits the old and the new
    viewport with the containment flag set, [resize] followed by the
    timeout and the end of the transitions runs no layout pass, emits one
    [renderComplete], and [getDebugInfo] then reports the new viewport
    size and, word for word, the same display text, x, y and rotation as
    before. *)
Theorem keep_layout_resize_keeps_positions :
  forall (s : TagCloud) (words : list Tag.t) (completedJob : Job.t) (bbox : BBox.t),
    idle s ->
    _words s = Some words ->
    _completedJob s = Some completedJob ->
    (offsetWidth s, offsetHeight s) <> _size s ->
    wasInside s && willBeInside (offsetWidth s) (offsetHeight s) s && _allInViewBox s
    = true ->
    let s' := run [CallResize; TimeoutFires; TransitionsEnd bbox] s in
    Forall2 samePlace (fst (getDebugInfo s')) (fst (getDebugInfo s))
    /\ snd (getDebugInfo s') = (offsetWidth s, offsetHeight s)
    /\ layoutPasses (effects s') = layoutPasses (effects s)
    /\ renderCompletes (effects s') = S (renderCompletes (effects s)).
Proof.
  intros s words completedJob bbox Hidle Hwords Hcompleted Hsize Hfits s'.
  subst s'. unfold run, fold_left, step.
  rewrite (resize_keeping_layout s words completedJob Hidle Hwords Hcompleted Hsize Hfits).
  unfold _pickPendingJob.
  rewrite (timeoutFires_hands_over
             _ {| Job.refreshLayout := false;
                  Job.size := (offsetWidth s, offsetHeight s);
                  Job.words := map preserve (Job.words completedJob) |})
    by reflexivity.
  unfold afterPickPendingJob. cbn [Job.words Job.refreshLayout].
  rewrite !getDebugInfo_positions. rewrite Hcompleted.
  destruct (Job.words completedJob) as [|word rest] eqn:Ewords; cbn [map].
  - rewrite finishJob_completes by reflexivity.
    rewrite transitionsEnd_not_awaited by (intros; discriminate).
    unfold getDebugInfo, _emptyDOM, emit; cbn.
    rewrite !layoutPasses_app, !renderCompletes_app; cbn.
    rewrite !app_nil_r, Nat.add_0_r, Nat.add_1_r. repeat split. constructor.
  - rewrite afterUpdateLayout_starts_transitions by reflexivity.
    rewrite (transitionsEnd_resumes
               _ {| Job.refreshLayout := false;
                    Job.size := (offsetWidth s, offsetHeight s);
                    Job.words := preserve word :: map preserve rest |})
      by reflexivity.
    rewrite finishJob_completes by reflexivity.
    unfold getDebugInfo, measure, emit; cbn.
    rewrite !layoutPasses_app, !renderCompletes_app; cbn.
    rewrite !app_nil_r, Nat.add_0_r, Nat.add_1_r. repeat split.
    constructor; [unfold samePlace; cbn; auto|].
    apply (samePlace_preserve rest).
Qed.

Lemma keep_layout_resize_keeps_positions_witness :
  Forall2 samePlace
    (fst (getDebugInfo
            (run [CallResize; TimeoutFires; TransitionsEnd (BBox.mk 230 130 40 40)]
                 (step sampleCompleted (ElementResized 500 300)))))
    (fst (getDebugInfo (step sampleCompleted (ElementResized 500 300)))).
Proof.
  refine (proj1 (keep_layout_resize_keeps_positions
                   (step sampleCompleted (ElementResized 500 300))
                   [sampleWord "a" 1]
                   (Job.mk true (400%N, 400%N) [samplePlaced "a" 1 0 0])
                   (BBox.mk 230 130 40 40)
                   (conj eq_refl (conj eq_refl eq_refl)) eq_refl eq_refl _ eq_refl)).
  intros H. apply (f_equal fst) in H. cbn in H. discriminate H.
Defined.

(** *** Words without a placement *)

(** X13. A word the layout generator left without a numeric [x], [y] or
    [rotate] is moved off-screen: its transform has rotation 0 and a
    translation by one and a half times the element's width and height,
    which lies strictly beyond the right and bottom edges of an element
    with an area. *)
Theorem unplaced_word_is_moved_off_screen :
  forall (s : TagCloud) (job : Job.t) (word : Tag.t),
    In word (Job.words job) ->
    unplaced word ->
    (0 < offsetWidth s)%N ->
    (0 < offsetHeight s)%N ->
    exists tx ty,
      In (tx, ty, 0) (affineTransforms job s)
      /\ (tx == (3 # 2) * inject_Z (Z.of_N (offsetWidth s)))%Q
      /\ (ty == (3 # 2) * inject_Z (Z.of_N (offsetHeight s)))%Q
      /\ (inject_Z (Z.of_N (offsetWidth s)) < tx)%Q
      /\ (inject_Z (Z.of_N (offsetHeight s)) < ty)%Q.
Proof.
  intros s job word Hin Hun Hw Hh.
  exists ((inject_Z (Z.of_N (offsetWidth s)) / 2) * 3)%Q,
         ((inject_Z (Z.of_N (offsetHeight s)) / 2) * 3)%Q.
  assert (Hw' : (0 < inject_Z (Z.of_N (offsetWidth s)))%Q).
  { change 0%Q with (inject_Z 0). rewrite <- Zlt_Qlt. lia. }
  assert (Hh' : (0 < inject_Z (Z.of_N (offsetHeight s)))%Q).
  { change 0%Q with (inject_Z 0). rewrite <- Zlt_Qlt. lia. }
  split.
  - unfold affineTransforms. apply in_map_iff. exists word. split; [|exact Hin].
    unfold positionWord, unplaced in *.
    destruct Hun as [H | [H | H]]; rewrite H;
      destruct (Tag.x word), (Tag.y word); try reflexivity.
  - assert (E : forall q : Q, (q / 2 * 3 == (3 # 2) * q)%Q) by (intros q; field).
    split; [apply E|]. split; [apply E|]. rewrite !E. split; lra.
Qed.

Lemma unplaced_word_is_moved_off_screen_witness :
  exists tx ty,
    In (tx, ty, 0)
       (affineTransforms (Job.mk true (400%N, 400%N) [sampleWord "a" 1])
                         (constructor 400 400))
    /\ (inject_Z 400 < tx)%Q /\ (inject_Z 400 < ty)%Q.
Proof.
  destruct (unplaced_word_is_moved_off_screen
              (constructor 400 400)
              (Job.mk true (400%N, 400%N) [sampleWord "a" 1])
              (sampleWord "a" 1))
    as (tx & ty & Hin & _ & _ & Hx & Hy).
  - left. reflexivity.
  - left. reflexivity.
  - reflexivity.
  - reflexivity.
  - exists tx, ty. split; [exact Hin | split; [exact Hx | exact Hy]].
Defined.

(** *** The values a rotation can take *)

(** X14. Whatever the text, the rotation is 0 under [single], 0 or 90
    under [right angled], and under [multiple] one of the twelve angles
    from -90 to 75 in steps of 15. *)
Theorem rotation_takes_few_values :
  forall (mode : Orientation) (tag : Tag.t) (r : Z),
    ORIENTATIONS mode tag = Some r ->
    match mode with
    | single => r = 0
    | right_angled => r = 0 \/ r = 90
    | multiple => -90 <= r <= 75 /\ (r + 90) mod 15 = 0
    end.
Proof.
  intros mode tag r. unfold ORIENTATIONS.
  destruct mode; [intros [= <-]; reflexivity | |];
    destruct (Tag.text tag) as [t|]; try discriminate; intros [= <-].
  - rewrite hashWithinRange_spec_hash by lia.
    pose proof (spec_hash_range 2 ltac:(lia) t). lia.
  - rewrite hashWithinRange_spec_hash by lia.
    pose proof (spec_hash_range 12 ltac:(lia) t) as H.
    split; [lia|].
    replace (spec_hash t 12 * 15 - 90 + 90) with (spec_hash t 12 * 15) by lia.
    apply Z.mod_mul. lia.
Qed.

Lemma rotation_takes_few_values_witness :
  -90 <= -60 <= 75 /\ (-60 + 90) mod 15 = 0.
Proof.
  exact (rotation_takes_few_values multiple (samplePlaced "foo" 3 0 0) (-60) eq_refl).
Defined.

(** *** The containment flag *)

(** X16. When the transitions of a job end, the cloud's stored width and
    height are those of the scene's bounding box, and the containment flag
    is set exactly when the box starts at non-negative coordinates and
    ends within the element; a set flag therefore means that the stored
    cloud is no wider and no higher than the element. *)
Theorem containment_flag_after_transitions :
  forall (s : TagCloud) (job : Job.t) (bbox : BBox.t),
    suspended s = AwaitingTransitions job ->
    let s' := step s (TransitionsEnd bbox) in
    _cloudWidth s' = BBox.width bbox
    /\ _cloudHeight s' = BBox.height bbox
    /\ (_allInViewBox s' = true
        <-> 0 <= BBox.x bbox /\ 0 <= BBox.y bbox
            /\ BBox.x bbox + BBox.width bbox <= Z.of_N (offsetWidth s)
            /\ BBox.y bbox + BBox.height bbox <= Z.of_N (offsetHeight s))
    /\ (_allInViewBox s' = true ->
        _cloudWidth s' <= Z.of_N (offsetWidth s')
        /\ _cloudHeight s' <= Z.of_N (offsetHeight s')).
Proof.
  intros s job bbox Hsusp s'.
  assert (H : _cloudWidth s' = BBox.width bbox
              /\ _cloudHeight s' = BBox.height bbox
              /\ offsetWidth s' = offsetWidth s
              /\ offsetHeight s' = offsetHeight s
              /\ _allInViewBox s'
                 = ((BBox.x bbox >=? 0) && (BBox.y bbox >=? 0)
                    && (BBox.x bbox + BBox.width bbox <=? Z.of_N (offsetWidth s))
                    && (BBox.y bbox + BBox.height bbox <=? Z.of_N (offsetHeight s)))).
  { subst s'. cbn [step]. rewrite (transitionsEnd_resumes s job bbox Hsusp).
    unfold finishJob, measure, _processPendingJob, _pickPendingJob, emit.
    split_tests; auto. }
  destruct H as (Hw & Hh & Hew & Heh & Hflag).
  assert (Hiff : _allInViewBox s' = true
                 <-> 0 <= BBox.x bbox /\ 0 <= BBox.y bbox
                     /\ BBox.x bbox + BBox.width bbox <= Z.of_N (offsetWidth s)
                     /\ BBox.y bbox + BBox.height bbox <= Z.of_N (offsetHeight s)).
  { rewrite Hflag, !andb_true_iff, !Z.leb_le, !Z.geb_le. tauto. }
  split; [exact Hw|]. split; [exact Hh|]. split; [exact Hiff|].
  intros Hset. apply Hiff in Hset. rewrite Hw, Hh, Hew, Heh. lia.
Qed.

Lemma containment_flag_after_transitions_witness :
  _allInViewBox (step sampleReconciling (TransitionsEnd (BBox.mk (-5) 0 40 40))) = false.
Proof.
  destruct (containment_flag_after_transitions
              sampleReconciling (Job.mk true (400%N, 400%N) [samplePlaced "a" 1 0 0])
              (BBox.mk (-5) 0 40 40) eq_refl)
    as (_ & _ & H & _).
  apply not_true_is_false. intros Hset. apply H in Hset. cbn in Hset. lia.
Defined.
(* ================================================================== *)
(** ** The serialization tells option objects apart *)

Lemma lit_inj s s' : Js.lit s = Js.lit s' -> s = s'.
Proof.
  unfold Js.lit. intros H.
  rewrite <- (string_of_list_ascii_of_string s), <- (string_of_list_ascii_of_string s').
  f_equal. revert H.
  generalize (list_ascii_of_string s) (list_ascii_of_string s').
  intros l. induction l as [|a l IH]; intros [|a' l']; cbn; try discriminate; auto.
  intros [= Ha Hl]. f_equal; [|apply IH, Hl].
  rewrite <- (ascii_N_embedding a), <- (ascii_N_embedding a'). congruence.
Qed.

(** Two finite numbers with the same digits are the same number. *)
Lemma stringifyNumber_inj x hx y hy :
  Js.stringifyNumber (Js.Int x hx) = Js.stringifyNumber (Js.Int y hy) ->
  Js.Int x hx = Js.Int y hy.
Proof.
  unfold Js.stringifyNumber. intros H. apply lit_inj in H.
  assert (Hxy : x = y).
  { apply DecimalZ.to_int_inj.
    assert (Hnn : forall z, Z.to_int z <> Decimal.Pos Decimal.Nil
                            /\ Z.to_int z <> Decimal.Neg Decimal.Nil).
    { intros [|p|p]; cbn; split; try discriminate; intros [= Hp];
        apply (DecimalPos.Unsigned.to_uint_nonnil p); exact Hp. }
    assert (Hx := NilZero.isi (Z.to_int x) (proj1 (Hnn x)) (proj2 (Hnn x))).
    assert (Hy := NilZero.isi (Z.to_int y) (proj1 (Hnn y)) (proj2 (Hnn y))).
    congruence. }
  subst y. f_equal. apply Eqdep_dec.UIP_dec, Bool.bool_dec.
Qed.

Lemma string_of_uint_notSeparator d :
  Forall notSeparator (Js.lit (NilEmpty.string_of_uint d)).
Proof.
  induction d; cbn; constructor; try exact IHd; split; discriminate.
Qed.

Lemma stringifyNumber_notSeparator n : Forall notSeparator (Js.stringifyNumber n).
Proof.
  assert (Hnull : Forall notSeparator (Js.lit "null")).
  { cbn. repeat (constructor; [split; discriminate|]). constructor. }
  destruct n as [| | |z safe]; try exact Hnull.
  unfold Js.stringifyNumber, NilZero.string_of_int.
  destruct (Z.to_int z) as [d|d].
  - destruct d; try apply (string_of_uint_notSeparator (_ _)).
    cbn. constructor; [split; discriminate | constructor].
  - change (Forall notSeparator
              (45%N :: Js.lit (NilZero.string_of_uint d))).
    constructor; [split; discriminate|].
    destruct d; try apply (string_of_uint_notSeparator (_ _)).
    cbn. constructor; [split; discriminate | constructor].
Qed.

(** A text ends at its first separator. *)
Lemma split_at_separator (l1 l2 : list N) c1 c2 r1 r2 :
  Forall notSeparator l1 -> Forall notSeparator l2 ->
  ~ notSeparator c1 -> ~ notSeparator c2 ->
  l1 ++ c1 :: r1 = l2 ++ c2 :: r2 ->
  l1 = l2 /\ c1 :: r1 = c2 :: r2.
Proof.
  intros H1. revert l2. induction H1 as [|a l1 Ha H1 IH]; intros l2 H2 Hc1 Hc2 Heq.
  - destruct H2 as [|b l2 Hb H2]; cbn in Heq; [auto|].
    injection Heq as -> _. contradiction.
  - destruct H2 as [|b l2 Hb H2]; cbn in Heq.
    + injection Heq as -> _. contradiction.
    + injection Heq as -> Heq. destruct (IH l2 H2 Hc1 Hc2 Heq) as [-> Hr]. auto.
Qed.

(** With finite sizes every listed property is written. *)
Lemma stringifyProperty_written o k :
  hasFiniteSizes o = true -> stringifyProperty o k = Some (written o k).
Proof.
  unfold hasFiniteSizes, written, stringifyProperty.
  destruct (Options.minFontSize o) as [[| | |x hx]|]; try discriminate;
    destruct (Options.maxFontSize o) as [[| | |y hy]|]; try discriminate;
    destruct k; reflexivity.
Qed.

Lemma stringifyProperties_written o :
  hasFiniteSizes o = true ->
  stringifyProperties o = map (written o) (Options.keys o).
Proof.
  intros Hfin. unfold stringifyProperties.
  induction (Options.keys o) as [|k keys IH]; [reflexivity|].
  cbn [flat_map map]. rewrite (stringifyProperty_written o k Hfin), IH. reflexivity.
Qed.

Lemma written_inj k a b t t' :
  hasFiniteSizes a = true -> hasFiniteSizes b = true ->
  separated t -> separated t' ->
  written a k ++ t = written b k ++ t' ->
  sameValue k a b /\ t = t'.
Proof.
  intros Ha Hb (c & r & -> & Hc) (c' & r' & -> & Hc') H.
  unfold hasFiniteSizes in Ha, Hb.
  destruct (Options.minFontSize a) as [[| | |x hx]|] eqn:Emina; try discriminate.
  destruct (Options.maxFontSize a) as [[| | |y hy]|] eqn:Emaxa; try discriminate.
  destruct (Options.minFontSize b) as [[| | |x' hx']|] eqn:Eminb; try discriminate.
  destruct (Options.maxFontSize b) as [[| | |y' hy']|] eqn:Emaxb; try discriminate.
  destruct k; unfold written, stringifyProperty, sameValue in *;
    rewrite ?Emina, ?Emaxa, ?Eminb, ?Emaxb in *;
    rewrite <- !app_assoc in H; apply app_inv_head in H; apply app_inv_head in H.
  - destruct (Options.orientation a), (Options.orientation b);
      vm_compute in H; try discriminate; (split; [reflexivity | congruence]).
  - apply split_at_separator in H;
      auto using stringifyNumber_notSeparator.
    destruct H as [H Ht]. split; [f_equal; apply stringifyNumber_inj, H | exact Ht].
  - apply split_at_separator in H;
      auto using stringifyNumber_notSeparator.
    destruct H as [H Ht]. split; [f_equal; apply stringifyNumber_inj, H | exact Ht].
  - destruct (Options.scale a), (Options.scale b);
      vm_compute in H; try discriminate; (split; [reflexivity | congruence]).
Qed.

Lemma joinComma_inj a b keys :
  hasFiniteSizes a = true -> hasFiniteSizes b = true ->
  joinComma (map (written a) keys) ++ Js.lit "}"
  = joinComma (map (written b) keys) ++ Js.lit "}" ->
  forall k, In k keys -> sameValue k a b.
Proof.
  intros Ha Hb.
  induction keys as [|k keys IH]; intros H k0 Hin; [destruct Hin|].
  assert (Hbrace : separated (Js.lit "}")).
  { exists 125%N, []. split; [reflexivity|]. intros [_ H']. apply H'. reflexivity. }
  destruct keys as [|k' keys].
  - cbn [map joinComma] in H.
    apply written_inj in H; [|exact Ha|exact Hb|exact Hbrace|exact Hbrace].
    destruct Hin as [<-|[]]. apply H.
  - cbn [map joinComma] in H. cbn [map joinComma] in IH.
    rewrite <- !app_assoc in H.
    apply written_inj in H; [|exact Ha|exact Hb| |].
    + destruct H as [Hk Ht]. destruct Hin as [<-|Hin]; [exact Hk|].
      apply IH; [|exact Hin]. apply app_inv_head in Ht. exact Ht.
    + exists 44%N. eexists. split; [reflexivity|]. intros [H' _]. apply H'. reflexivity.
    + exists 44%N. eexists. split; [reflexivity|]. intros [H' _]. apply H'. reflexivity.
Qed.

(** X17. The serialization compared by [setOptions] tells apart option
    objects whose font sizes are finite: two objects that list the four
    properties in the same order and hold a finite number for each size
    serialize to the same string only if they are equal.  So a call whose
    object differs from the one applied last in any of the four values is
    never taken for a repetition: its values are stored (font sizes
    ordered) and its serialization remembered. *)
Theorem changed_options_are_applied :
  forall (s : TagCloud) (a b : Options.t),
    Options.keys a = Options.keys b ->
    (forall k, In k (Options.keys a)) ->
    hasFiniteSizes a = true ->
    hasFiniteSizes b = true ->
    (stringifyOptions a = stringifyOptions b -> a = b)
    /\ (a <> b ->
        storedOptions (setOptions b (setOptions a s))
        = (Options.orientation b,
           Math.min (Options.readMinFontSize b) (Options.readMaxFontSize b),
           Math.max (Options.readMinFontSize b) (Options.readMaxFontSize b),
           Options.scale b,
           Some (stringifyOptions b))).
Proof.
  intros s a b Hkeys Hall Ha Hb.
  assert (Hinj : stringifyOptions a = stringifyOptions b -> a = b).
  { unfold stringifyOptions.
    rewrite (stringifyProperties_written a Ha), (stringifyProperties_written b Hb).
    rewrite <- Hkeys. intros H.
    apply app_inv_head in H.
    pose proof (joinComma_inj a b (Options.keys a) Ha Hb H) as Hsame.
    pose proof (Hsame k_orientation (Hall _)) as Ho.
    pose proof (Hsame k_minFontSize (Hall _)) as Hmin.
    pose proof (Hsame k_maxFontSize (Hall _)) as Hmax.
    pose proof (Hsame k_scale (Hall _)) as Hsc.
    destruct a, b; cbn in *. congruence. }
  split; [exact Hinj|].
  intros Hne. rewrite storedOptions_setOptions.
  assert (Hstored : _optionsAsString (setOptions a s) = Some (stringifyOptions a)).
  { pose proof (storedOptions_setOptions a s) as H.
    destruct (strictEquals (stringifyOptions a) (_optionsAsString s)) eqn:E.
    - apply strictEquals_true in E. unfold storedOptions in H.
      injection H as _ _ _ _ H. congruence.
    - unfold storedOptions in H. injection H as _ _ _ _ H. exact H. }
  destruct (strictEquals (stringifyOptions b) (_optionsAsString (setOptions a s))) eqn:E;
    [|reflexivity].
  apply strictEquals_true in E. rewrite Hstored in E.
  exfalso. apply Hne, Hinj. congruence.
Qed.

Lemma changed_options_are_applied_witness :
  storedOptions
    (setOptions
       (sampleOptionsWith (Some (Js.Int 10 eq_refl)) (Some (Js.Int 72 eq_refl)) linear)
       (setOptions sampleOptions sampleCompleted))
  = (Options.orientation
       (sampleOptionsWith (Some (Js.Int 10 eq_refl)) (Some (Js.Int 72 eq_refl)) linear),
     Math.min
       (Options.readMinFontSize
          (sampleOptionsWith (Some (Js.Int 10 eq_refl)) (Some (Js.Int 72 eq_refl)) linear))
       (Options.readMaxFontSize
          (sampleOptionsWith (Some (Js.Int 10 eq_refl)) (Some (Js.Int 72 eq_refl)) linear)),
     Math.max
       (Options.readMinFontSize
          (sampleOptionsWith (Some (Js.Int 10 eq_refl)) (Some (Js.Int 72 eq_refl)) linear))
       (Options.readMaxFontSize
          (sampleOptionsWith (Some (Js.Int 10 eq_refl)) (Some (Js.Int 72 eq_refl)) linear)),
     Options.scale
       (sampleOptionsWith (Some (Js.Int 10 eq_refl)) (Some (Js.Int 72 eq_refl)) linear),
     Some (stringifyOptions
             (sampleOptionsWith (Some (Js.Int 10 eq_refl)) (Some (Js.Int 72 eq_refl))
                                linear))).
Proof.
  refine (proj2 (changed_options_are_applied
                   sampleCompleted sampleOptions
                   (sampleOptionsWith (Some (Js.Int 10 eq_refl)) (Some (Js.Int 72 eq_refl))
                                      linear)
                   eq_refl _ eq_refl eq_refl) _).
  - intros []; cbn; tauto.
  - discriminate.
Defined.

(* ================================================================== *)
(** ** Coalescing, counted *)

Lemma layoutPasses_step s e :
  (List.length (layoutPasses (effects (step s e)))
   <= List.length (layoutPasses (effects s))
      + match e with TimeoutFires => 1 | _ => 0 end)%nat.
Proof.
  destruct e; by_cases; rewrite ?layoutPasses_app, ?length_app; cbn; lia.
Qed.

(** X18. However many calls are made, there are never more layout passes
    than firings of the zero-delay timeout: a layout pass only starts when
    the timeout hands over the pending job, once per firing at most. *)
Theorem layout_passes_bounded_by_timeouts :
  forall (width height : N) (events : list Event),
    (List.length (layoutPasses (effects (run events (constructor width height))))
     <= timeoutFirings events)%nat.
Proof.
  intros width height events.
  assert (H : forall s,
             (List.length (layoutPasses (effects (run events s)))
              <= List.length (layoutPasses (effects s)) + timeoutFirings events)%nat).
  { induction events as [|e events IH]; intros s; cbn [run fold_left].
    - unfold timeoutFirings. cbn. lia.
    - specialize (IH (step s e)). pose proof (layoutPasses_step s e) as Hstep.
      unfold run in IH. unfold timeoutFirings in *. cbn [filter].
      destruct e; cbn [List.length] in *; lia. }
  specialize (H (constructor width height)). cbn in H. exact H.
Qed.

(* ================================================================== *)
(** ** The key of a word across layout-preserving jobs *)

(** X19. The copy of a word made for a layout-preserving job keeps the
    word's key ([rawText], or [text] when [rawText] is missing or empty)
    as its [rawText], and copying the copy changes nothing more, provided
    the key is not the empty string (which the copy turns into a missing
    key). *)
Theorem preserved_word_keeps_its_key :
  forall tag : Tag.t,
    rawKey tag <> Some [] ->
    Tag.rawText (preserve tag) = rawKey tag
    /\ rawKey (preserve tag) = rawKey tag
    /\ preserve (preserve tag) = preserve tag.
Proof.
  intros tag Hkey. unfold rawKey, preserve, orElse in *. cbn.
  destruct (Tag.rawText tag) as [[|c r]|]; cbn;
    destruct (Tag.text tag) as [[|c' r']|]; cbn in *;
    try (exfalso; apply Hkey; reflexivity); repeat split.
Qed.

Lemma preserved_word_keeps_its_key_witness :
  Tag.rawText (preserve (samplePlaced "a" 1 0 0)) = Some (Js.lit "a").
Proof.
  apply (preserved_word_keeps_its_key (samplePlaced "a" 1 0 0)). discriminate.
Defined.
